(** * ParkingLot: the detection-to-decision pipeline of [pyapi.py]

    A shallow embedding of the Flask service in [src/pyapi.py]: the label
    sets, [count_spots], [draw_detections] and the three routes, with the
    properties of the specification stated over it.

    Conventions of the embedding.
    - A Python [str] is a [string]; a Python [int] is a [Z].
    - A finite float (a box coordinate, a class index, a confidence, a float
      literal) is the rational it denotes, a [Q]; the code never does float
      arithmetic of its own, it only truncates ([int]), formats ([:.2f]) and
      hands floats over to OpenCV.
    - A numpy array is an object of the store: a location in a
      [gmap loc image].  OpenCV writes into its destination array in place.
    - What the repository imports and does not define ([str.lower], the
      OpenCV primitives, the codec, the YOLO model) is a field of the class
      [Imports]; every definition and theorem is stated for an arbitrary
      instance.  OpenCV primitives are functions of the pixels they read
      and are taken to succeed: [cv2.error] (raised, for one, on a
      coordinate outside the C [int] range) is not modelled.
      [str.lower] is constrained on ASCII text only, where a Python [str]
      and a [string] agree.
    - Requests are served one at a time. *)

From Stdlib Require Import ZArith QArith Qround Qabs Lqa String Ascii List Lia.
From Stdlib Require DecimalString.
From stdpp Require Import base option gmap strings list fin_maps.

Local Open Scope Z_scope.
Local Open Scope string_scope.

(** ** Python values *)

Module Py.

(** [int(x)] on a finite float: truncation toward zero. *)
Definition int (x : Q) : Z := Z.quot (Qnum x) (Z.pos (Qden x)).

(** ASCII part of [str.lower]: [A-Z] go to [a-z], every other character of
    the ASCII range is kept. *)
Definition lower_ascii_char (c : ascii) : ascii :=
  let n := N_of_ascii c in
  if ((65 <=? n) && (n <=? 90))%N then ascii_of_N (n + 32) else c.

Fixpoint lower_ascii (s : string) : string :=
  match s with
  | EmptyString => EmptyString
  | String c r => String (lower_ascii_char c) (lower_ascii r)
  end.

Definition upper_ascii_char (c : ascii) : ascii :=
  let n := N_of_ascii c in
  if ((97 <=? n) && (n <=? 122))%N then ascii_of_N (n - 32) else c.

Fixpoint upper_ascii (s : string) : string :=
  match s with
  | EmptyString => EmptyString
  | String c r => String (upper_ascii_char c) (upper_ascii r)
  end.

(** Text made of code points below 128 only. *)
Fixpoint is_ascii (s : string) : bool :=
  match s with
  | EmptyString => true
  | String c r => (N_of_ascii c <? 128)%N && is_ascii r
  end.

(** Decimal digits of a natural number, as [str(n)] prints them. *)
Definition digits (n : N) : string :=
  DecimalString.NilZero.string_of_uint (N.to_uint n).

(** Round half to even, on a non-negative rational. *)
Definition round_half_even (x : Q) : Z :=
  let f := Qfloor x in
  match Qcompare (x - inject_Z f) (1 # 2) with
  | Lt => f
  | Gt => f + 1
  | Eq => if Z.even f then f else f + 1
  end.

(** [format(x, ".2f")]: the decimal with two fractional digits nearest to
    the exact value of [x], ties to even, with the sign of [x]. *)
Definition format_2f (x : Q) : string :=
  let n := round_half_even (Qabs x * 100) in
  let frac := Z.to_N (n mod 100) in
  (if Qlt_le_dec x 0 then "-" else "")
    ++ digits (Z.to_N (n / 100)) ++ "."
    ++ (if (frac <? 10)%N then "0" else "") ++ digits frac.

(** Exceptions the modelled code can raise. *)
Inductive exn :=
| KeyError (k : Z)
| IndexError.

Inductive outcome (A : Type) :=
| Ret (a : A)
| Raise (e : exn).
Arguments Ret {A} a.
Arguments Raise {A} e.

End Py.

Export Py.

(** ** Detector output

    [ultralytics] results: the class-name dictionary and the three parallel
    tensors of the boxes. *)

Record Boxes := MkBoxes {
  xyxy : list (Q * Q * Q * Q);
  cls : list Q;
  conf : list Q
}.

Record Results := MkResults {
  names : gmap Z string;
  boxes : Boxes
}.

(** [zip(a, b, c)]: stops with the shortest argument. *)
Fixpoint zip3 {A B C : Type} (a : list A) (b : list B) (c : list C)
  : list (A * B * C) :=
  match a, b, c with
  | x :: a', y :: b', z :: c' => (x, y, z) :: zip3 a' b' c'
  | _, _, _ => []
  end.

(** [names[k]] *)
Definition getitem (d : gmap Z string) (k : Z) : outcome string :=
  match d !! k with
  | Some s => Ret s
  | None => Raise (KeyError k)
  end.

(** ** Label sets (lines 42-43) *)

Definition FREE_LABELS : gset string :=
  {[ "free"; "open"; "vacant"; "empty"; "available" ]}.

Definition OCC_LABELS : gset string :=
  {[ "occupied"; "taken"; "parked"; "blocked" ]}.

(** The three semantic categories of the specification. *)
Inductive category := Free | Occupied | Unknown.

#[global] Instance category_eq_dec : EqDecision category.
Proof. solve_decision. Defined.

(** ** HTTP values *)

Abbreviation bytes := (list Byte.byte) (only parsing).
Abbreviation loc := positive (only parsing).

Inductive payload :=
| JsonError (error : string)
| JsonCounts (ok : bool) (free occupied total openCount occupiedCount : Z)
| JsonStatus (status model : string) (classes : gmap Z string)
| JpegFile (data : bytes)
| Unhandled (e : exn).

Record response := MkResponse {
  status_code : Z;
  body : payload
}.

(** [jsonify(error=msg), code] *)
Definition json_error (code : Z) (msg : string) : response :=
  MkResponse code (JsonError msg).

(** An exception that leaves a view function: Flask answers 500. *)
Definition internal_error (e : exn) : response :=
  MkResponse 500 (Unhandled e).

Inductive request :=
| POST_detect (files : gmap string bytes)
| GET_get_image
| GET_status.

(** The double quote character, for the message of line 141. *)
Definition dquote : string := String (ascii_of_nat 34) EmptyString.

Definition msg_missing : string :=
  "missing file field " ++ dquote ++ "image" ++ dquote.
Definition msg_empty : string := "empty upload".
Definition msg_decode : string := "decode failed (bad image bytes)".
Definition msg_no_image : string := "No image available".

(** OpenCV: the font constant, points and BGR colours. *)
Definition FONT_HERSHEY_SIMPLEX : Z := 0.
Abbreviation point := (Z * Z)%type (only parsing).
Abbreviation colour := (Z * Z * Z)%type (only parsing).

(** ** What the repository imports

    [str.lower]; OpenCV, as functions from the contents of the arrays read
    to the contents written into the destination array; the codec; the YOLO
    model, [api_model(img, conf=.., iou=..)] and [api_model.names]. *)

Class Imports := {
  str_lower : string -> string;
  image : Type;
  cv_getTextSize : string -> Z -> Q -> Z -> (Z * Z) * Z;
  cv_rectangle : image -> point -> point -> colour -> Z -> image;
  cv_addWeighted : image -> Q -> image -> Q -> Q -> image;
  cv_putText : image -> string -> point -> Z -> Q -> colour -> Z -> image;
  cv_imdecode : bytes -> option image;
  cv_imencode_jpg : image -> bytes;
  api_model : image -> Q -> Q -> list Results;
  api_model_names : gmap Z string
}.

Section Service.

Context {I : Imports}.

(** *** The store of arrays *)

Definition ST (A : Type) : Type :=
  gmap loc image -> outcome A * gmap loc image.

Definition st_ret {A} (a : A) : ST A := fun h => (Ret a, h).

Definition st_bind {A B} (m : ST A) (k : A -> ST B) : ST B :=
  fun h =>
    match m h with
    | (Ret a, h') => k a h'
    | (Raise e, h') => (Raise e, h')
    end.

Definition st_lift {A} (o : outcome A) : ST A := fun h => (o, h).

Notation "x <~ m ;; k" := (st_bind m (fun x => k))
  (at level 100, m at next level, right associativity).
Notation "m ;;; k" := (st_bind m (fun _ => k))
  (at level 100, right associativity).

(** A new array holding [a]. *)
Definition ndarray_new (a : image) : ST loc :=
  fun h => let l := fresh (dom h) in (Ret l, <[l := a]> h).

(** [src.copy()].  Locations come from [ndarray_new] and [ndarray_copy]
    only, so the [None] cases below and in [addWeighted] do not arise. *)
Definition ndarray_copy (src : loc) : ST loc :=
  fun h =>
    match h !! src with
    | Some a => ndarray_new a h
    | None => (Ret src, h)
    end.

(** [cv2.rectangle(dst, pt1, pt2, color, thickness)]: in place. *)
Definition rectangle (dst : loc) (pt1 pt2 : point) (color : colour)
    (thickness : Z) : ST unit :=
  fun h => (Ret tt, alter (fun a => cv_rectangle a pt1 pt2 color thickness) dst h).

(** [cv2.addWeighted(src1, alpha, src2, beta, gamma, dst)] *)
Definition addWeighted (src1 : loc) (alpha : Q) (src2 : loc) (beta gamma : Q)
    (dst : loc) : ST unit :=
  fun h =>
    match h !! src1, h !! src2 with
    | Some a, Some b => (Ret tt, <[dst := cv_addWeighted a alpha b beta gamma]> h)
    | _, _ => (Ret tt, h)
    end.

(** [cv2.putText(dst, text, org, face, scale, color, thickness)] *)
Definition putText (dst : loc) (text : string) (org : point) (face : Z)
    (scale : Q) (color : colour) (thickness : Z) : ST unit :=
  fun h =>
    (Ret tt, alter (fun a => cv_putText a text org face scale color thickness) dst h).

(** *** [draw_detections] (lines 46-103) *)

(** The body of the loop, lines 68-101. *)
Definition draw_body (names : gmap Z string) (img : loc)
    (row : (Q * Q * Q * Q) * Q * Q) : ST unit :=
  let '((fx1, fy1, fx2, fy2), cls, conf) := row in
  let x1 := Py.int fx1 in
  let y1 := Py.int fy1 in
  let x2 := Py.int fx2 in
  let y2 := Py.int fy2 in
  name <~ st_lift (getitem names (Py.int cls)) ;;
  let lbl := str_lower name in
  style <~
    (if decide (lbl ∈ FREE_LABELS) then
       let color := (0, 200, 0) in
       let thickness := 3 in
       let txt := "Free " ++ format_2f conf in
       let '((tw, th), _) :=
         cv_getTextSize txt FONT_HERSHEY_SIMPLEX (6 # 10) 2 in
       let y0 := Z.max 0 (y1 - th - 6) in
       overlay <~ ndarray_copy img ;;
       rectangle overlay (x1, y0) (x1 + tw + 8, y1) color (-1) ;;;
       addWeighted overlay (35 # 100) img (65 # 100) 0 img ;;;
       putText img txt (x1 + 4, y1 - 4) FONT_HERSHEY_SIMPLEX (6 # 10)
         (255, 255, 255) 2 ;;;
       st_ret (color, thickness)
     else
       st_ret ((50, 50, 200), 1)) ;;
  rectangle img (x1, y1) (x2, y2) (fst style) (snd style).

Fixpoint draw_loop (names : gmap Z string) (img : loc)
    (rows : list ((Q * Q * Q * Q) * Q * Q)) : ST unit :=
  match rows with
  | [] => st_ret tt
  | row :: rest =>
      fun h =>
        match draw_body names img row h with
        | (Ret _, h') => draw_loop names img rest h'
        | (Raise e, h') => (Raise e, h')
        end
  end.

Definition draw_detections (img : loc) (result : Results) : ST loc :=
  let names := names result in
  let boxes := boxes result in
  draw_loop names img (zip3 (xyxy boxes) (cls boxes) (conf boxes)) ;;;
  st_ret img.

(** *** [count_spots] (lines 106-129) *)

Fixpoint count_loop (names : gmap Z string) (classes : list Z)
    (open_cnt occ_cnt : Z) : outcome (Z * Z) :=
  match classes with
  | [] => Ret (open_cnt, occ_cnt)
  | cls :: rest =>
      match getitem names cls with
      | Raise e => Raise e
      | Ret name =>
          let lbl := str_lower name in
          if decide (lbl ∈ FREE_LABELS) then
            count_loop names rest (open_cnt + 1) occ_cnt
          else if decide (lbl ∈ OCC_LABELS) then
            count_loop names rest open_cnt (occ_cnt + 1)
          else
            count_loop names rest open_cnt occ_cnt
      end
  end.

Definition count_spots (result : Results) : outcome (Z * Z) :=
  let names := names result in
  count_loop names (Py.int <$> cls (boxes result)) 0 0.

(** The decision that lines 121-127 take on a class name: lower it, test
    [FREE_LABELS], then [OCC_LABELS]. *)
Definition classify (label : string) : category :=
  let lbl := str_lower label in
  if decide (lbl ∈ FREE_LABELS) then Free
  else if decide (lbl ∈ OCC_LABELS) then Occupied
  else Unknown.

(** The class names of the detections, in detector order, when every
    class index has one. *)
Definition class_names (result : Results) : option (list string) :=
  mapM (fun k => names result !! k) (Py.int <$> cls (boxes result)).

(** How many of the names fall into category [c]. *)
Definition tally (c : category) (labels : list string) : nat :=
  length (filter (fun l => classify l = c) labels).

(** The renderer of the specification, as a function on pixels: what one
    detection does to the contents [a] of the working picture, by its
    category.  [draw_body_paint] relates it to [draw_body]. *)
Definition paint_row (names : gmap Z string) (a : image)
    (row : (Q * Q * Q * Q) * Q * Q) : outcome image :=
  let '((fx1, fy1, fx2, fy2), cls, conf) := row in
  let x1 := Py.int fx1 in
  let y1 := Py.int fy1 in
  let x2 := Py.int fx2 in
  let y2 := Py.int fy2 in
  match getitem names (Py.int cls) with
  | Raise e => Raise e
  | Ret name =>
      match classify name with
      | Free =>
          let txt := "Free " ++ format_2f conf in
          let '(tw, th) :=
            fst (cv_getTextSize txt FONT_HERSHEY_SIMPLEX (6 # 10) 2) in
          let y0 := Z.max 0 (y1 - th - 6) in
          let overlay := cv_rectangle a (x1, y0) (x1 + tw + 8, y1) (0, 200, 0) (-1) in
          let blended := cv_addWeighted overlay (35 # 100) a (65 # 100) 0 in
          let labelled :=
            cv_putText blended txt (x1 + 4, y1 - 4) FONT_HERSHEY_SIMPLEX
              (6 # 10) (255, 255, 255) 2 in
          Ret (cv_rectangle labelled (x1, y1) (x2, y2) (0, 200, 0) 3)
      | Occupied | Unknown =>
          Ret (cv_rectangle a (x1, y1) (x2, y2) (50, 50, 200) 1)
      end
  end.

Fixpoint paint_rows (names : gmap Z string) (a : image)
    (rows : list ((Q * Q * Q * Q) * Q * Q)) : outcome image :=
  match rows with
  | [] => Ret a
  | row :: rest =>
      match paint_row names a row with
      | Ret a' => paint_rows names a' rest
      | Raise e => Raise e
      end
  end.

(** The annotated picture as a function of the picture and the results. *)
Definition render (a : image) (result : Results) : outcome image :=
  let b := boxes result in
  paint_rows (names result) a (zip3 (xyxy b) (cls b) (conf b)).

(** *** The routes *)

(** The process and what it can observe: the arrays in memory, the file at
    [LAST_PATH] ([None] when it does not exist) and the pictures the
    detector has been run on, latest first. *)
Record world := MkWorld {
  arrays : gmap loc image;
  last_annotated : option bytes;
  inferences : list image
}.

(** Line 156: [draw_detections(img.copy(), result)]. *)
Definition annotate (img : loc) (result : Results) : ST loc :=
  copy <~ ndarray_copy img ;;
  draw_detections copy result.

(** The contents of the array a computation returned. *)
Definition returned_pixels (r : outcome loc * gmap loc image)
    : outcome (option image) :=
  match r with
  | (Ret l, h) => Ret (h !! l)
  | (Raise e, _) => Raise e
  end.

(** [cv2.imwrite(LAST_PATH, annotated)] *)
Definition imwrite (h : gmap loc image) (annotated : loc)
    (file : option bytes) : option bytes :=
  match h !! annotated with
  | Some a => Some (cv_imencode_jpg a)
  | None => file
  end.

(** [POST /detect] (lines 131-175).  [cv2.imdecode] returns its picture in
    a new array [img]; the detector is run on it (line 153), then
    [count_spots] (line 154), line 156 and [cv2.imwrite] (line 157). *)
Definition detect_route (files : gmap string bytes) (w : world)
    : response * world :=
  match files !! "image" with
  | None => (json_error 400 msg_missing, w)
  | Some data =>
      match data with
      | [] => (json_error 400 msg_empty, w)
      | _ :: _ =>
          match cv_imdecode data with
          | None => (json_error 400 msg_decode, w)
          | Some pixels =>
              let img := fresh (dom (arrays w)) in
              let h1 := <[img := pixels]> (arrays w) in
              let seen := pixels :: inferences w in
              match api_model pixels (35 # 100) (50 # 100) with
              | [] =>
                  (internal_error IndexError,
                   MkWorld h1 (last_annotated w) seen)
              | result :: _ =>
                  match count_spots result with
                  | Raise e =>
                      (internal_error e, MkWorld h1 (last_annotated w) seen)
                  | Ret (open_cnt, occ_cnt) =>
                      match annotate img result h1 with
                      | (Raise e, h2) =>
                          (internal_error e,
                           MkWorld h2 (last_annotated w) seen)
                      | (Ret annotated, h2) =>
                          let file := imwrite h2 annotated (last_annotated w) in
                          let total := open_cnt + occ_cnt in
                          (MkResponse 200
                             (JsonCounts true open_cnt occ_cnt total
                                open_cnt occ_cnt),
                           MkWorld h2 file seen)
                      end
                  end
              end
          end
      end
  end.

(** [GET /get_image] (lines 178-192) *)
Definition get_image (w : world) : response * world :=
  match last_annotated w with
  | None => (json_error 404 msg_no_image, w)
  | Some data => (MkResponse 200 (JpegFile data), w)
  end.

(** [GET /status] (lines 196-210) *)
Definition status (w : world) : response * world :=
  (MkResponse 200 (JsonStatus "running" "best.pt" api_model_names), w).

Definition handle (r : request) (w : world) : response * world :=
  match r with
  | POST_detect files => detect_route files w
  | GET_get_image => get_image w
  | GET_status => status w
  end.

(** The requests of a process lifetime, served one after the other. *)
Fixpoint serve (rs : list request) (w : world) : list response * world :=
  match rs with
  | [] => ([], w)
  | r :: rest =>
      let '(resp, w1) := handle r w in
      let '(resps, w2) := serve rest w1 in
      (resp :: resps, w2)
  end.

(** A [/detect] request that went through to its success payload. *)
Definition detect_succeeded (r : request) (resp : response) : bool :=
  match r, body resp with
  | POST_detect _, JsonCounts _ _ _ _ _ _ => true
  | _, _ => false
  end.

(** The JPEG that a [/detect] request with these files is to leave behind:
    decode, infer, [render], encode. *)
Definition annotated_jpeg (files : gmap string bytes) : option bytes :=
  match files !! "image" with
  | None => None
  | Some data =>
      match cv_imdecode data with
      | None => None
      | Some pixels =>
          match api_model pixels (35 # 100) (50 # 100) with
          | [] => None
          | result :: _ =>
              match render pixels result with
              | Ret a => Some (cv_imencode_jpg a)
              | Raise _ => None
              end
          end
      end
  end.

(** The JPEG of the latest successful [/detect] of a run, [acc] when there
    is none. *)
Fixpoint latest_stored (rs : list request) (w : world) (acc : option bytes)
    : option bytes :=
  match rs with
  | [] => acc
  | r :: rest =>
      let '(resp, w1) := handle r w in
      latest_stored rest w1
        (if detect_succeeded r resp then
           match r with
           | POST_detect files => annotated_jpeg files
           | _ => acc
           end
         else acc)
  end.

(** Whether some [/detect] of the run succeeded. *)
Fixpoint any_detect_succeeded (rs : list request) (w : world) : bool :=
  match rs with
  | [] => false
  | r :: rest =>
      let '(resp, w1) := handle r w in
      detect_succeeded r resp || any_detect_succeeded rest w1
  end.

(** The requests that can change the process: [/detect] only. *)
Definition is_detect (r : request) : bool :=
  match r with
  | POST_detect _ => true
  | _ => false
  end.

End Service.

(** ** A small instance of the imports

    Enough of OpenCV, of a codec and of a detector to run the service on
    concrete requests: an image is the base picture together with the
    drawing calls applied to it. *)

Module Demo.

Inductive canvas :=
| Decoded (data : bytes)
| Rect (c : canvas) (pt1 pt2 : point) (color : colour) (thickness : Z)
| Blend (a : canvas) (alpha : Q) (b : canvas) (beta gamma : Q)
| Text (c : canvas) (text : string) (org : point) (face : Z) (scale : Q)
    (color : colour) (thickness : Z).

Definition getTextSize (text : string) (face : Z) (scale : Q)
    (thickness : Z) : (Z * Z) * Z :=
  ((11 * Z.of_nat (String.length text), 13), 5).

(** Accepts what starts with the JPEG start-of-image marker. *)
Definition imdecode (data : bytes) : option canvas :=
  match data with
  | Byte.xff :: Byte.xd8 :: _ => Some (Decoded data)
  | _ => None
  end.

Fixpoint calls (c : canvas) : nat :=
  match c with
  | Decoded _ => 0
  | Rect c _ _ _ _ => S (calls c)
  | Blend a _ b _ _ => S (calls a + calls b)
  | Text c _ _ _ _ _ _ => S (calls c)
  end.

Definition imencode_jpg (c : canvas) : bytes :=
  Byte.xff :: Byte.xd8 :: repeat Byte.x2a (calls c) ++ [Byte.xff; Byte.xd9].

Definition vocabulary : gmap Z string :=
  {[ 0 := "Free"; 1 := "OCCUPIED"; 2 := "cone" ]}.

(** One free spot, one occupied spot and one traffic cone. *)
Definition lot : Results :=
  MkResults vocabulary
    (MkBoxes [ (107 # 10, 40, 60, 90)%Q; (70, 405 # 10, 120, 90)%Q;
               (5, 5, 9, 9)%Q ]
             [ 0%Q; 1%Q; 2%Q ]
             [ 14596178 # 16777216; 3 # 4; 1 # 2 ]).

Definition model (c : canvas) (conf iou : Q) : list Results := [lot].

#[export] Instance imports : Imports := {|
  str_lower := lower_ascii;
  image := canvas;
  cv_getTextSize := getTextSize;
  cv_rectangle := Rect;
  cv_addWeighted := Blend;
  cv_putText := Text;
  cv_imdecode := imdecode;
  cv_imencode_jpg := imencode_jpg;
  api_model := model;
  api_model_names := vocabulary
|}.

Definition jpeg : bytes := [Byte.xff; Byte.xd8; Byte.x00; Byte.xff; Byte.xd9].
Definition junk : bytes := [Byte.x00; Byte.x01; Byte.x02].

(** The process before its first request, without and with a file left at
    [LAST_PATH] by an earlier run. *)
Definition boot : world := MkWorld ∅ None [].
Definition reboot : world := MkWorld ∅ (Some jpeg) [].

(** A run of requests: a look at the picture, a broken upload, a good one,
    a status check and a request without its file field. *)
Definition day : list request :=
  [ GET_get_image;
    POST_detect {[ "image" := junk ]};
    POST_detect {[ "image" := jpeg ]};
    GET_status;
    POST_detect ∅ ].

(** Stores with the decoded picture in them. *)
Definition easel : gmap loc canvas := {[ 1%positive := Decoded jpeg ]}.
Definition studio : gmap loc canvas :=
  {[ 1%positive := Decoded junk; 5%positive := Decoded jpeg ]}.

(** The same imports with a detector that finds nothing. *)
Definition nothing : Results := MkResults vocabulary (MkBoxes [] [] []).

Definition quiet : Imports := {|
  str_lower := lower_ascii;
  image := canvas;
  cv_getTextSize := getTextSize;
  cv_rectangle := Rect;
  cv_addWeighted := Blend;
  cv_putText := Text;
  cv_imdecode := imdecode;
  cv_imencode_jpg := imencode_jpg;
  api_model := fun _ _ _ => [nothing];
  api_model_names := vocabulary
|}.

(** Results whose second class index has no name. *)
Definition stray : Results :=
  MkResults vocabulary
    (MkBoxes [ (5, 5, 9, 9)%Q; (1, 2, 3, 4)%Q; (0, 0, 1, 1)%Q ]
             [ 1%Q; 7%Q; 9%Q ]
             [ 1 # 2; 1 # 2; 1 # 2 ]).

(** The same imports with a detector that reports [stray]. *)
Definition lost : Imports := {|
  str_lower := lower_ascii;
  image := canvas;
  cv_getTextSize := getTextSize;
  cv_rectangle := Rect;
  cv_addWeighted := Blend;
  cv_putText := Text;
  cv_imdecode := imdecode;
  cv_imencode_jpg := imencode_jpg;
  api_model := fun _ _ _ => [stray];
  api_model_names := vocabulary
|}.

(** The two halves of [lot]. *)
Definition lot_head : Results :=
  MkResults vocabulary
    (MkBoxes [ (107 # 10, 40, 60, 90)%Q ] [ 0%Q ] [ 14596178 # 16777216 ]).
Definition lot_tail : Results :=
  MkResults vocabulary
    (MkBoxes [ (70, 405 # 10, 120, 90)%Q; (5, 5, 9, 9)%Q ]
             [ 1%Q; 2%Q ] [ 3 # 4; 1 # 2 ]).

End Demo.

(** ** Properties *)

(** *** Numbers and text *)

Example int_trunc_pos : Py.int (107 # 10) = 10.
Proof. reflexivity. Qed.

Example int_trunc_neg : Py.int (-107 # 10) = -10.
Proof. reflexivity. Qed.

Example format_087 : format_2f (14596178 # 16777216) = "0.87".
Proof. vm_compute. reflexivity. Qed.

Example format_tie_even : format_2f (1 # 8) = "0.12" /\ format_2f (3 # 8) = "0.38".
Proof. split; vm_compute; reflexivity. Qed.

Example format_small : format_2f (1 # 1000) = "0.00" /\ format_2f 1 = "1.00".
Proof. split; vm_compute; reflexivity. Qed.


Lemma lower_upper_ascii_char c :
  lower_ascii_char (upper_ascii_char c) = lower_ascii_char c.
Proof. destruct c as [[] [] [] [] [] [] [] []]; reflexivity. Qed.

Lemma lower_lower_ascii_char c :
  lower_ascii_char (lower_ascii_char c) = lower_ascii_char c.
Proof. destruct c as [[] [] [] [] [] [] [] []]; reflexivity. Qed.

Lemma upper_ascii_char_is_ascii c :
  (N_of_ascii c <? 128)%N = true ->
  (N_of_ascii (upper_ascii_char c) <? 128)%N = true.
Proof. destruct c as [[] [] [] [] [] [] [] []]; intros H; exact H || reflexivity. Qed.

Lemma lower_ascii_char_is_ascii c :
  (N_of_ascii c <? 128)%N = true ->
  (N_of_ascii (lower_ascii_char c) <? 128)%N = true.
Proof. destruct c as [[] [] [] [] [] [] [] []]; intros H; exact H || reflexivity. Qed.

Lemma lower_upper_ascii s : lower_ascii (upper_ascii s) = lower_ascii s.
Proof.
  induction s as [|c s IH]; simpl; [reflexivity|].
  now rewrite lower_upper_ascii_char, IH.
Qed.

Lemma lower_lower_ascii s : lower_ascii (lower_ascii s) = lower_ascii s.
Proof.
  induction s as [|c s IH]; simpl; [reflexivity|].
  now rewrite lower_lower_ascii_char, IH.
Qed.

Lemma upper_ascii_is_ascii s : is_ascii s = true -> is_ascii (upper_ascii s) = true.
Proof.
  induction s as [|c s IH]; simpl; [reflexivity|].
  rewrite !andb_true_iff. intros [Hc Hs]. split; [|auto].
  now apply upper_ascii_char_is_ascii.
Qed.

Lemma lower_ascii_is_ascii s : is_ascii s = true -> is_ascii (lower_ascii s) = true.
Proof.
  induction s as [|c s IH]; simpl; [reflexivity|].
  rewrite !andb_true_iff. intros [Hc Hs]. split; [|auto].
  now apply lower_ascii_char_is_ascii.
Qed.

(** *** Rounding *)

Lemma round_half_even_near x :
  (Qabs (x - inject_Z (round_half_even x)) <= 1 # 2)%Q.
Proof.
  unfold round_half_even.
  pose proof (Qfloor_le x) as Hlo.
  pose proof (Qlt_floor x) as Hhi.
  rewrite inject_Z_plus in Hhi. change (inject_Z 1) with 1%Q in Hhi.
  apply Qabs_Qle_condition.
  destruct (Qcompare_spec (x - inject_Z (Qfloor x)) (1 # 2)) as [He|Hl|Hg].
  - destruct (Z.even (Qfloor x));
      [|rewrite inject_Z_plus; change (inject_Z 1) with 1%Q]; lra.
  - lra.
  - rewrite inject_Z_plus. change (inject_Z 1) with 1%Q. lra.
Qed.

Lemma round_half_even_nonneg x : (0 <= x)%Q -> 0 <= round_half_even x.
Proof.
  intros Hx. unfold round_half_even.
  assert (0 <= Qfloor x) by (change 0 with (Qfloor 0); now apply Qfloor_resp_le).
  destruct (Qcompare _ _); [destruct (Z.even _)| |]; lia.
Qed.

(** *** The label sets *)

Lemma elem_of_FREE_LABELS x :
  x ∈ FREE_LABELS <->
  x = "free" \/ x = "open" \/ x = "vacant" \/ x = "empty" \/ x = "available".
Proof. unfold FREE_LABELS. rewrite !elem_of_union, !elem_of_singleton. tauto. Qed.

Lemma elem_of_OCC_LABELS x :
  x ∈ OCC_LABELS <->
  x = "occupied" \/ x = "taken" \/ x = "parked" \/ x = "blocked".
Proof. unfold OCC_LABELS. rewrite !elem_of_union, !elem_of_singleton. tauto. Qed.

Lemma labels_disjoint x : x ∈ FREE_LABELS -> x ∈ OCC_LABELS -> False.
Proof.
  rewrite elem_of_FREE_LABELS, elem_of_OCC_LABELS.
  intros H1 H2.
  destruct H1 as [->|[->|[->|[->| ->]]]];
    destruct H2 as [H2|[H2|[H2|H2]]]; discriminate H2.
Qed.

Section Properties.

Context {I : Imports}.

(** *** The classifier *)

Lemma classify_Free label :
  classify label = Free <-> str_lower label ∈ FREE_LABELS.
Proof. unfold classify. repeat case_decide; split; intros; done. Qed.

Lemma classify_Occupied label :
  classify label = Occupied <-> str_lower label ∈ OCC_LABELS.
Proof.
  unfold classify. repeat case_decide; split; intros; try done.
  exfalso. eauto using labels_disjoint.
Qed.

Lemma classify_Unknown label :
  classify label = Unknown <->
  (str_lower label ∉ FREE_LABELS) /\ (str_lower label ∉ OCC_LABELS).
Proof. unfold classify. repeat case_decide; split; intros; try done; tauto. Qed.

(** *** The counter *)

Lemma count_loop_step names k label rest open_cnt occ_cnt :
  names !! k = Some label ->
  count_loop names (k :: rest) open_cnt occ_cnt =
    match classify label with
    | Free => count_loop names rest (open_cnt + 1) occ_cnt
    | Occupied => count_loop names rest open_cnt (occ_cnt + 1)
    | Unknown => count_loop names rest open_cnt occ_cnt
    end.
Proof.
  intros Hk. simpl. unfold getitem, classify. rewrite Hk.
  repeat case_decide; reflexivity.
Qed.

Lemma tally_cons c label labels :
  tally c (label :: labels) =
    ((if decide (classify label = c) then 1 else 0) + tally c labels)%nat.
Proof.
  unfold tally. rewrite filter_cons. case_decide; reflexivity.
Qed.

Lemma tally_partition labels :
  (tally Free labels + tally Occupied labels + tally Unknown labels)%nat
  = length labels.
Proof.
  induction labels as [|l ls IH]; [reflexivity|].
  rewrite !tally_cons. simpl length.
  destruct (classify l); repeat case_decide; try congruence; lia.
Qed.

Lemma count_loop_tally names ks labels open_cnt occ_cnt :
  mapM (fun k => names !! k) ks = Some labels ->
  count_loop names ks open_cnt occ_cnt =
    Ret (open_cnt + Z.of_nat (tally Free labels),
         occ_cnt + Z.of_nat (tally Occupied labels)).
Proof.
  revert labels open_cnt occ_cnt.
  induction ks as [|k ks IH]; intros labels open_cnt occ_cnt Hm.
  - simpl in Hm. injection Hm as <-. simpl. f_equal. f_equal; cbn; lia.
  - rewrite mapM_Some in Hm.
    inversion Hm as [|? label ? labels' Hk Hrest]; subst.
    apply mapM_Some in Hrest.
    rewrite (count_loop_step _ _ label) by exact Hk.
    rewrite !tally_cons.
    destruct (classify label) eqn:Hc; rewrite (IH _ _ _ Hrest);
      repeat case_decide; try congruence; f_equal; f_equal; lia.
Qed.

Lemma count_loop_mono names ks open_cnt occ_cnt o c :
  count_loop names ks open_cnt occ_cnt = Ret (o, c) ->
  open_cnt <= o /\ occ_cnt <= c.
Proof.
  revert open_cnt occ_cnt.
  induction ks as [|k ks IH]; intros open_cnt occ_cnt; simpl.
  - intros [= <- <-]. lia.
  - destruct (getitem names k); [|discriminate].
    repeat case_decide; intros Hr; apply IH in Hr; lia.
Qed.

Lemma count_spots_nonneg result o c :
  count_spots result = Ret (o, c) -> 0 <= o /\ 0 <= c.
Proof. apply count_loop_mono. Qed.

(** *** The renderer *)

Lemma fresh_not_allocated (h : gmap loc image) l a :
  h !! l = Some a -> fresh (dom h) <> l.
Proof.
  intros Hl Heq. apply (is_fresh (dom h)). rewrite Heq.
  apply elem_of_dom. eauto.
Qed.

(** One detection named in [FREE_LABELS]: the store after the body. *)
Lemma draw_body_free names img h a fx1 fy1 fx2 fy2 c cf name :
  h !! img = Some a ->
  names !! Py.int c = Some name ->
  str_lower name ∈ FREE_LABELS ->
  let x1 := Py.int fx1 in
  let y1 := Py.int fy1 in
  let x2 := Py.int fx2 in
  let y2 := Py.int fy2 in
  let txt := "Free " ++ format_2f cf in
  let tw := fst (fst (cv_getTextSize txt FONT_HERSHEY_SIMPLEX (6 # 10) 2)) in
  let th := snd (fst (cv_getTextSize txt FONT_HERSHEY_SIMPLEX (6 # 10) 2)) in
  let y0 := Z.max 0 (y1 - th - 6) in
  let overlay := cv_rectangle a (x1, y0) (x1 + tw + 8, y1) (0, 200, 0) (-1) in
  let blended := cv_addWeighted overlay (35 # 100) a (65 # 100) 0 in
  let labelled :=
    cv_putText blended txt (x1 + 4, y1 - 4) FONT_HERSHEY_SIMPLEX (6 # 10)
      (255, 255, 255) 2 in
  let boxed := cv_rectangle labelled (x1, y1) (x2, y2) (0, 200, 0) 3 in
  draw_body names img ((fx1, fy1, fx2, fy2), c, cf) h =
    (Ret tt, <[img := boxed]> (<[fresh (dom h) := overlay]> h)).
Proof.
  intros Ha Hk Hfree. cbv zeta.
  pose proof (fresh_not_allocated h img a Ha) as Hne.
  unfold draw_body, st_bind, st_lift, getitem. rewrite Hk.
  rewrite decide_True by exact Hfree.
  destruct (cv_getTextSize _ _ _ _) as [[tw th] bl]. cbn [fst snd].
  unfold ndarray_copy, ndarray_new. rewrite Ha.
  unfold rectangle at 1. rewrite alter_insert_eq.
  unfold addWeighted. rewrite lookup_insert_eq.
  rewrite lookup_insert_ne by exact Hne. rewrite Ha.
  unfold putText, st_ret. rewrite alter_insert_eq.
  unfold rectangle. cbn [fst snd]. rewrite alter_insert_eq.
  reflexivity.
Qed.

(** One detection named outside [FREE_LABELS]. *)
Lemma draw_body_other names img h a fx1 fy1 fx2 fy2 c cf name :
  h !! img = Some a ->
  names !! Py.int c = Some name ->
  str_lower name ∉ FREE_LABELS ->
  draw_body names img ((fx1, fy1, fx2, fy2), c, cf) h =
    (Ret tt,
     <[img := cv_rectangle a (Py.int fx1, Py.int fy1) (Py.int fx2, Py.int fy2)
                (50, 50, 200) 1]> h).
Proof.
  intros Ha Hk Hother.
  unfold draw_body, st_bind, st_lift, getitem. rewrite Hk.
  rewrite decide_False by exact Hother.
  unfold st_ret, rectangle. cbn [fst snd]. f_equal.
  apply map_eq. intros l. rewrite lookup_alter.
  destruct (decide (img = l)) as [<-|Hl].
  - now rewrite lookup_insert_eq, Ha.
  - now rewrite lookup_insert_ne.
Qed.

(** A class index without a name: [KeyError], nothing drawn. *)
Lemma draw_body_keyerror names img h fx1 fy1 fx2 fy2 c cf :
  names !! Py.int c = None ->
  draw_body names img ((fx1, fy1, fx2, fy2), c, cf) h =
    (Raise (KeyError (Py.int c)), h).
Proof.
  intros Hk. unfold draw_body, st_bind, st_lift, getitem. now rewrite Hk.
Qed.

Lemma paint_row_other names a fx1 fy1 fx2 fy2 c cf name :
  names !! Py.int c = Some name ->
  str_lower name ∉ FREE_LABELS ->
  paint_row names a ((fx1, fy1, fx2, fy2), c, cf) =
    Ret (cv_rectangle a (Py.int fx1, Py.int fy1) (Py.int fx2, Py.int fy2)
           (50, 50, 200) 1).
Proof.
  intros Hk Hother. unfold paint_row, getitem. rewrite Hk.
  destruct (classify name) eqn:Hc; [|reflexivity|reflexivity].
  apply classify_Free in Hc. contradiction.
Qed.

Lemma paint_row_free names a fx1 fy1 fx2 fy2 c cf name :
  names !! Py.int c = Some name ->
  str_lower name ∈ FREE_LABELS ->
  let x1 := Py.int fx1 in
  let y1 := Py.int fy1 in
  let x2 := Py.int fx2 in
  let y2 := Py.int fy2 in
  let txt := "Free " ++ format_2f cf in
  let tw := fst (fst (cv_getTextSize txt FONT_HERSHEY_SIMPLEX (6 # 10) 2)) in
  let th := snd (fst (cv_getTextSize txt FONT_HERSHEY_SIMPLEX (6 # 10) 2)) in
  let y0 := Z.max 0 (y1 - th - 6) in
  let overlay := cv_rectangle a (x1, y0) (x1 + tw + 8, y1) (0, 200, 0) (-1) in
  let blended := cv_addWeighted overlay (35 # 100) a (65 # 100) 0 in
  let labelled :=
    cv_putText blended txt (x1 + 4, y1 - 4) FONT_HERSHEY_SIMPLEX (6 # 10)
      (255, 255, 255) 2 in
  paint_row names a ((fx1, fy1, fx2, fy2), c, cf) =
    Ret (cv_rectangle labelled (x1, y1) (x2, y2) (0, 200, 0) 3).
Proof.
  intros Hk Hfree. cbv zeta. unfold paint_row, getitem. rewrite Hk.
  rewrite (proj2 (classify_Free name) Hfree).
  destruct (cv_getTextSize _ _ _ _) as [[tw th] bl]. reflexivity.
Qed.

Lemma paint_row_keyerror names a fx1 fy1 fx2 fy2 c cf :
  names !! Py.int c = None ->
  paint_row names a ((fx1, fy1, fx2, fy2), c, cf) = Raise (KeyError (Py.int c)).
Proof. intros Hk. unfold paint_row, getitem. now rewrite Hk. Qed.

(** The body against its pure account: the working array holds the
    painted picture, and every other array that was there is untouched. *)
Lemma draw_body_paint names img row h a :
  h !! img = Some a ->
  exists h',
    (forall l, l ∈ dom h -> l <> img -> h' !! l = h !! l) /\
    dom h ⊆ dom h' /\
    match paint_row names a row with
    | Ret a' => draw_body names img row h = (Ret tt, h') /\ h' !! img = Some a'
    | Raise e => draw_body names img row h = (Raise e, h') /\ h' !! img = Some a
    end.
Proof.
  intros Ha. destruct row as [[[[[fx1 fy1] fx2] fy2] c] cf].
  destruct (names !! Py.int c) as [name|] eqn:Hk.
  - destruct (decide (str_lower name ∈ FREE_LABELS)) as [Hf|Hf].
    + rewrite (paint_row_free _ a fx1 fy1 fx2 fy2 c cf name Hk Hf).
      rewrite (draw_body_free _ _ _ _ _ _ _ _ _ _ _ Ha Hk Hf).
      eexists. split; [|split; [|split; [reflexivity|]]].
      * intros l Hl Hne. rewrite lookup_insert_ne by (intros E; now apply Hne).
        rewrite lookup_insert_ne; [reflexivity|].
        intros <-. now apply (is_fresh (dom h)).
      * etrans; apply dom_insert_subseteq.
      * apply lookup_insert_eq.
    + rewrite (paint_row_other _ a fx1 fy1 fx2 fy2 c cf name Hk Hf).
      rewrite (draw_body_other _ _ _ _ _ _ _ _ _ _ _ Ha Hk Hf).
      eexists. split; [|split; [|split; [reflexivity|]]].
      * intros l Hl Hne. now rewrite lookup_insert_ne by (intros E; now apply Hne).
      * apply dom_insert_subseteq.
      * apply lookup_insert_eq.
  - rewrite (paint_row_keyerror _ a _ _ _ _ _ _ Hk).
    rewrite (draw_body_keyerror _ _ _ _ _ _ _ _ _ Hk).
    exists h. split; [|split]; [reflexivity| reflexivity |].
    split; [reflexivity|exact Ha].
Qed.

Lemma draw_loop_paint names img rows :
  forall h a,
    h !! img = Some a ->
    exists h',
      (forall l, l ∈ dom h -> l <> img -> h' !! l = h !! l) /\
      dom h ⊆ dom h' /\
      match paint_rows names a rows with
      | Ret a' => draw_loop names img rows h = (Ret tt, h') /\ h' !! img = Some a'
      | Raise e => draw_loop names img rows h = (Raise e, h')
      end.
Proof.
  induction rows as [|row rows IH]; intros h a Ha.
  - exists h. simpl. unfold st_ret. repeat split; auto.
  - destruct (draw_body_paint names img row h a Ha) as (h1 & Hfr1 & Hd1 & Hrow).
    simpl. destruct (paint_row names a row) as [a1|e].
    + destruct Hrow as [Hrun Ha1]. rewrite Hrun.
      destruct (IH h1 a1 Ha1) as (h2 & Hfr2 & Hd2 & Hrest).
      exists h2. split; [|split; [|exact Hrest]].
      * intros l Hl Hne. rewrite Hfr2 by auto. now apply Hfr1.
      * etrans; eassumption.
    + destruct Hrow as [Hrun _]. rewrite Hrun.
      exists h1. repeat split; auto.
Qed.

(** [draw_detections] hands back the array it was given: it draws in
    place. *)
Lemma draw_detections_in_place img result h l h' :
  draw_detections img result h = (Ret l, h') -> l = img.
Proof.
  unfold draw_detections, st_bind, st_ret.
  destruct (draw_loop _ _ _ h) as [[[]|e] h1]; congruence.
Qed.

(** Line 156 as a whole: the picture comes out in a new array, and every
    array that existed before the call is as it was. *)
Lemma annotate_render img result h a :
  h !! img = Some a ->
  exists h',
    (forall l, l ∈ dom h -> h' !! l = h !! l) /\
    match render a result with
    | Ret a' =>
        annotate img result h = (Ret (fresh (dom h)), h') /\
        h' !! fresh (dom h) = Some a'
    | Raise e => annotate img result h = (Raise e, h')
    end.
Proof.
  intros Ha.
  unfold annotate, st_bind, ndarray_copy, ndarray_new. rewrite Ha.
  unfold draw_detections, st_bind, st_ret, render.
  set (cp := fresh (dom h)).
  set (rows := zip3 _ _ _).
  destruct (draw_loop_paint (names result) cp rows (<[cp := a]> h) a
              (lookup_insert_eq _ _ _)) as (h' & Hfr & _ & Hrun).
  exists h'. split.
  - intros l Hl.
    assert (l <> cp) as Hne by (intros ->; now apply (is_fresh (dom h))).
    rewrite Hfr; [now rewrite lookup_insert_ne|rewrite dom_insert; set_unfold; tauto|exact Hne].
  - destruct (paint_rows _ a rows) as [a'|e].
    + destruct Hrun as [-> Hcp]. split; [reflexivity|exact Hcp].
    + now rewrite Hrun.
Qed.

Lemma annotate_frame img result h a r h' :
  h !! img = Some a ->
  annotate img result h = (r, h') ->
  (forall l, l ∈ dom h -> h' !! l = h !! l) /\
  (forall l, r = Ret l -> l = fresh (dom h)).
Proof.
  intros Ha Hrun.
  destruct (annotate_render img result h a Ha) as (h'' & Hfr & Hspec).
  destruct (render a result).
  - destruct Hspec as [Hspec _]. rewrite Hspec in Hrun.
    injection Hrun as <- <-. split; [exact Hfr|]. now intros l [= <-].
  - rewrite Hspec in Hrun. injection Hrun as <- <-.
    split; [exact Hfr|discriminate].
Qed.

(** *** The routes *)

(** What [/detect] leaves at [LAST_PATH]: the JPEG of the rendered picture
    when it succeeds, the file as it was otherwise. *)
Lemma detect_route_file files w :
  last_annotated (snd (detect_route files w)) =
    if detect_succeeded (POST_detect files) (fst (detect_route files w))
    then annotated_jpeg files
    else last_annotated w.
Proof.
  unfold detect_route, annotated_jpeg.
  destruct (files !! "image") as [data|]; [|reflexivity].
  destruct data as [|b data]; [reflexivity|].
  destruct (cv_imdecode (b :: data)) as [pixels|]; [|reflexivity].
  destruct (api_model pixels _ _) as [|result rest]; [reflexivity|].
  destruct (count_spots result) as [[open_cnt occ_cnt]|e]; [|reflexivity].
  destruct (annotate_render (fresh (dom (arrays w))) result
              (<[fresh (dom (arrays w)) := pixels]> (arrays w)) pixels
              (lookup_insert_eq _ _ _)) as (h' & _ & Hrun).
  destruct (render pixels result) as [a'|e].
  - destruct Hrun as [-> Hcp]. cbn. unfold imwrite. now rewrite Hcp.
  - rewrite Hrun. reflexivity.
Qed.

Lemma detect_succeeded_jpeg files w :
  detect_succeeded (POST_detect files) (fst (detect_route files w)) = true ->
  is_Some (annotated_jpeg files).
Proof.
  unfold detect_route, annotated_jpeg.
  destruct (files !! "image") as [data|]; [|discriminate].
  destruct data as [|b data]; [discriminate|].
  destruct (cv_imdecode (b :: data)) as [pixels|]; [|discriminate].
  destruct (api_model pixels _ _) as [|result rest]; [discriminate|].
  destruct (count_spots result) as [[open_cnt occ_cnt]|e]; [|discriminate].
  destruct (annotate_render (fresh (dom (arrays w))) result
              (<[fresh (dom (arrays w)) := pixels]> (arrays w)) pixels
              (lookup_insert_eq _ _ _)) as (h' & _ & Hrun).
  destruct (render pixels result) as [a'|e].
  - intros _. eauto.
  - rewrite Hrun. discriminate.
Qed.

Lemma handle_file r w :
  last_annotated (snd (handle r w)) =
    if detect_succeeded r (fst (handle r w)) then
      match r with
      | POST_detect files => annotated_jpeg files
      | _ => last_annotated w
      end
    else last_annotated w.
Proof.
  destruct r as [files| |]; simpl.
  - apply detect_route_file.
  - unfold get_image. destruct (last_annotated w) eqn:E; simpl; now rewrite ?E.
  - reflexivity.
Qed.

Lemma serve_file rs :
  forall w,
    last_annotated (snd (serve rs w)) = latest_stored rs w (last_annotated w).
Proof.
  induction rs as [|r rs IH]; intros w; [reflexivity|].
  simpl. pose proof (handle_file r w) as Hh.
  destruct (handle r w) as [resp w1]. simpl in Hh.
  specialize (IH w1). destruct (serve rs w1) as [resps w2]. simpl in *.
  rewrite IH, Hh. reflexivity.
Qed.

Lemma latest_stored_quiet rs :
  forall w acc,
    any_detect_succeeded rs w = false -> latest_stored rs w acc = acc.
Proof.
  induction rs as [|r rs IH]; intros w acc; [reflexivity|].
  simpl. destruct (handle r w) as [resp w1].
  rewrite orb_false_iff. intros [-> Hrest]. now apply IH.
Qed.

Lemma latest_stored_keeps rs :
  forall w acc, is_Some acc -> is_Some (latest_stored rs w acc).
Proof.
  induction rs as [|r rs IH]; intros w acc Hacc; [exact Hacc|].
  simpl. pose proof (detect_succeeded_jpeg) as Hj.
  destruct (handle r w) as [resp w1] eqn:Hh. apply IH.
  destruct (detect_succeeded r resp) eqn:Hs; [|exact Hacc].
  destruct r as [files| |]; try exact Hacc.
  apply (Hj files w). simpl in Hh. now rewrite Hh.
Qed.

Lemma latest_stored_success rs :
  forall w acc,
    any_detect_succeeded rs w = true -> is_Some (latest_stored rs w acc).
Proof.
  induction rs as [|r rs IH]; intros w acc; [discriminate|].
  simpl. pose proof (detect_succeeded_jpeg) as Hj.
  destruct (handle r w) as [resp w1] eqn:Hh.
  destruct (detect_succeeded r resp) eqn:Hs; simpl.
  - intros _. apply latest_stored_keeps.
    destruct r as [files| |]; try discriminate Hs.
    apply (Hj files w). simpl in Hh. now rewrite Hh.
  - apply IH.
Qed.

(** The success payload of [/detect] carries the counts of [count_spots]
    on the detector's first result. *)
Lemma detect_route_counts files w ok free occupied total oc occ :
  body (fst (detect_route files w)) = JsonCounts ok free occupied total oc occ ->
  exists data pixels result rest,
    files !! "image" = Some data /\
    cv_imdecode data = Some pixels /\
    api_model pixels (35 # 100) (50 # 100) = result :: rest /\
    count_spots result = Ret (free, occupied) /\
    ok = true /\ total = free + occupied /\ oc = free /\ occ = occupied.
Proof.
  unfold detect_route.
  destruct (files !! "image") as [data|]; [|discriminate].
  destruct data as [|b data]; [discriminate|].
  destruct (cv_imdecode (b :: data)) as [pixels|] eqn:Hdec; [|discriminate].
  destruct (api_model pixels _ _) as [|result rest] eqn:Hres; [discriminate|].
  destruct (count_spots result) as [[open_cnt occ_cnt]|e] eqn:Hcount;
    [|discriminate].
  destruct (annotate _ result _) as [[annotated|e] h2]; [|discriminate].
  cbn. intros [= <- <- <- <- <- <-].
  exists (b :: data), pixels, result, rest. repeat split; auto.
Qed.

Lemma count_spots_keyerror result :
  class_names result = None ->
  exists k, count_spots result = Raise (KeyError k).
Proof.
  unfold class_names, count_spots.
  generalize (Py.int <$> cls (boxes result)) as ks.
  generalize 0 at 1. generalize 0.
  intros occ_cnt open_cnt ks. revert open_cnt occ_cnt.
  induction ks as [|k ks IH]; intros open_cnt occ_cnt Hm; [discriminate|].
  simpl in *. unfold getitem.
  destruct (names result !! k) as [label|]; [|eauto].
  simpl in Hm. destruct (mapM _ ks) eqn:Hks; [discriminate|].
  repeat case_decide; now apply IH.
Qed.

(** *** The properties of the specification *)

(** C1. Whenever every detection has a class name, [count_spots] returns
    counts that are non-negative and are the numbers of detections
    classified Free and Occupied; a detection classified Unknown moves
    neither counter and is left out of their sum; without detections the
    counts are [(0, 0)]; and the total that [/detect] reports is
    [free + occupied] for the counts that [count_spots] returned. *)
Theorem count_spots_counts :
  (forall result labels,
     class_names result = Some labels ->
     exists open_cnt occ_cnt,
       count_spots result = Ret (open_cnt, occ_cnt) /\
       0 <= open_cnt /\ 0 <= occ_cnt /\
       open_cnt = Z.of_nat (tally Free labels) /\
       occ_cnt = Z.of_nat (tally Occupied labels) /\
       open_cnt + occ_cnt =
         Z.of_nat (length labels) - Z.of_nat (tally Unknown labels)) /\
  (forall names k label rest open_cnt occ_cnt,
     names !! k = Some label ->
     classify label = Unknown ->
     count_loop names (k :: rest) open_cnt occ_cnt =
       count_loop names rest open_cnt occ_cnt) /\
  (forall names xyxy conf,
     count_spots (MkResults names (MkBoxes xyxy [] conf)) = Ret (0, 0)) /\
  (forall files w ok free occupied total oc occ,
     body (fst (detect_route files w)) =
       JsonCounts ok free occupied total oc occ ->
     total = free + occupied /\ 0 <= free /\ 0 <= occupied /\
     oc = free /\ occ = occupied /\
     exists data pixels result rest,
       files !! "image" = Some data /\
       cv_imdecode data = Some pixels /\
       api_model pixels (35 # 100) (50 # 100) = result :: rest /\
       count_spots result = Ret (free, occupied)).
Proof.
  split; [|split; [|split]].
  - intros result labels Hl. unfold count_spots.
    rewrite (count_loop_tally _ _ labels) by exact Hl.
    do 2 eexists. split; [reflexivity|].
    pose proof (tally_partition labels). lia.
  - intros names k label rest open_cnt occ_cnt Hk Hu.
    rewrite (count_loop_step _ _ label) by exact Hk. now rewrite Hu.
  - reflexivity.
  - intros files w ok free occupied total oc occ Hb.
    apply detect_route_counts in Hb
      as (data & pixels & result & rest & Hf & Hd & Hm & Hc & _ & -> & -> & ->).
    pose proof (count_spots_nonneg _ _ _ Hc).
    repeat split; try lia. eauto 10.
Qed.

Section AsciiText.

(** [str.lower] on ASCII text. *)
Hypothesis str_lower_ascii :
  forall s, is_ascii s = true -> str_lower s = lower_ascii s.

Lemma classify_ascii label :
is_ascii label = true ->
classify label =
  if decide (lower_ascii label ∈ FREE_LABELS) then Free
  else if decide (lower_ascii label ∈ OCC_LABELS) then Occupied
  else Unknown.
Proof. intros Ha. unfold classify. now rewrite str_lower_ascii. Qed.

(** C2. Classification is total and case-insensitive: a label whose
  lowered form is in [FREE_LABELS] (free, open, vacant, empty, available)
  is Free, otherwise one whose lowered form is in [OCC_LABELS] (occupied,
  taken, parked, blocked) is Occupied, any other is Unknown; on ASCII
  text two labels that differ in letter case only are classified alike;
  and this is the decision the counting loop takes. *)
Theorem classify_case_insensitive_total label :
(str_lower label ∈ FREE_LABELS -> classify label = Free) /\
(str_lower label ∉ FREE_LABELS -> str_lower label ∈ OCC_LABELS ->
   classify label = Occupied) /\
(str_lower label ∉ FREE_LABELS -> str_lower label ∉ OCC_LABELS ->
   classify label = Unknown) /\
(forall x, x ∈ FREE_LABELS <->
   x = "free" \/ x = "open" \/ x = "vacant" \/ x = "empty" \/
   x = "available") /\
(forall x, x ∈ OCC_LABELS <->
   x = "occupied" \/ x = "taken" \/ x = "parked" \/ x = "blocked") /\
(is_ascii label = true ->
   classify (upper_ascii label) = classify label /\
   classify (lower_ascii label) = classify label /\
   forall other,
     is_ascii other = true ->
     lower_ascii other = lower_ascii label ->
     classify other = classify label) /\
(forall names k rest open_cnt occ_cnt,
   names !! k = Some label ->
   count_loop names (k :: rest) open_cnt occ_cnt =
     match classify label with
     | Free => count_loop names rest (open_cnt + 1) occ_cnt
     | Occupied => count_loop names rest open_cnt (occ_cnt + 1)
     | Unknown => count_loop names rest open_cnt occ_cnt
     end).
Proof.
split; [apply classify_Free|].
split; [intros _; apply classify_Occupied|].
split; [intros; now apply classify_Unknown|].
split; [apply elem_of_FREE_LABELS|].
split; [apply elem_of_OCC_LABELS|].
split; [|intros; now apply count_loop_step].
intros Ha.
assert (Hsame : forall other, is_ascii other = true ->
          lower_ascii other = lower_ascii label ->
          classify other = classify label).
{ intros other Ho Heq.
  rewrite (classify_ascii other Ho), (classify_ascii label Ha).
  now rewrite Heq. }
split; [|split; [|exact Hsame]].
- apply Hsame; [now apply upper_ascii_is_ascii|apply lower_upper_ascii].
- apply Hsame; [now apply lower_ascii_is_ascii|apply lower_lower_ascii].
Qed.

End AsciiText.

(** C10. The counts depend on the name mapping and on the class indices
    only: results that differ in their box coordinates and confidences
    get the same counts. *)
Theorem count_spots_ignores_boxes_and_conf names classes xyxy1 conf1 xyxy2 conf2 :
  count_spots (MkResults names (MkBoxes xyxy1 classes conf1)) =
  count_spots (MkResults names (MkBoxes xyxy2 classes conf2)).
Proof. reflexivity. Qed.

(** C3. [POST /detect] answers 400 with the message of the first check
    that fails, in this order: no file field "image"; an empty payload;
    bytes that do not decode.  Each of them ends the request, and a
    request that passes all three is not answered 400. *)
Theorem detect_route_rejects_in_order files w :
  (files !! "image" = None ->
     detect_route files w = (MkResponse 400 (JsonError msg_missing), w)) /\
  (files !! "image" = Some [] ->
     detect_route files w = (MkResponse 400 (JsonError msg_empty), w)) /\
  (forall data,
     files !! "image" = Some data -> data <> [] ->
     cv_imdecode data = None ->
     detect_route files w = (MkResponse 400 (JsonError msg_decode), w)) /\
  (forall data pixels,
     files !! "image" = Some data -> data <> [] ->
     cv_imdecode data = Some pixels ->
     status_code (fst (detect_route files w)) <> 400).
Proof.
  unfold detect_route. repeat split.
  - now intros ->.
  - now intros ->.
  - intros data -> Hne Hdec. destruct data; [contradiction|]. now rewrite Hdec.
  - intros data pixels -> Hne Hdec. destruct data; [contradiction|].
    rewrite Hdec.
    destruct (api_model pixels _ _) as [|result rest]; [discriminate|].
    destruct (count_spots result) as [[open_cnt occ_cnt]|e]; [|discriminate].
    destruct (annotate _ result _) as [[annotated|e] h2]; discriminate.
Qed.

(** C4. A [/detect] request that is answered with one of the three client
    errors leaves the process as it found it: the file at [LAST_PATH], the
    record of detector runs and the arrays are unchanged. *)
Theorem detect_route_error_no_effect files w :
  body (fst (detect_route files w)) = JsonError msg_missing \/
  body (fst (detect_route files w)) = JsonError msg_empty \/
  body (fst (detect_route files w)) = JsonError msg_decode ->
  snd (detect_route files w) = w /\
  last_annotated (snd (detect_route files w)) = last_annotated w /\
  inferences (snd (detect_route files w)) = inferences w.
Proof.
  intros Herr.
  assert (snd (detect_route files w) = w) as ->; [|auto].
  revert Herr. unfold detect_route.
  destruct (files !! "image") as [data|]; [|reflexivity].
  destruct data as [|b data]; [reflexivity|].
  destruct (cv_imdecode (b :: data)) as [pixels|]; [|reflexivity].
  destruct (api_model pixels _ _) as [|result rest];
    [intros [Hb|[Hb|Hb]]; discriminate Hb|].
  destruct (count_spots result) as [[open_cnt occ_cnt]|e];
    [|intros [Hb|[Hb|Hb]]; discriminate Hb].
  destruct (annotate _ result _) as [[annotated|e] h2];
    intros [Hb|[Hb|Hb]]; discriminate Hb.
Qed.

Lemma latest_stored_overwrites rs :
  forall w acc1 acc2,
    any_detect_succeeded rs w = true ->
    latest_stored rs w acc1 = latest_stored rs w acc2.
Proof.
  induction rs as [|r rs IH]; intros w acc1 acc2; [discriminate|].
  simpl. destruct (handle r w) as [resp w1].
  destruct (detect_succeeded r resp) eqn:Hs; simpl.
  - intros _. destruct r; try discriminate Hs. reflexivity.
  - apply IH.
Qed.

(** C5, as amended. After any run of requests [GET /get_image] answers 404
    "No image available" exactly if no file is at [LAST_PATH], and 200 with
    the bytes of the file otherwise.  Once a [/detect] of the run has
    succeeded the answer is 200 with the JPEG of the picture rendered by the
    latest [/detect] that succeeded, so that a 404 tells that none has.
    While none has succeeded the answer is the one the process would have
    given as it started: 404 exactly if no file was at [LAST_PATH] then. *)
Theorem get_image_after_run rs w0 :
  let w := snd (serve rs w0) in
  (fst (get_image w) = MkResponse 404 (JsonError msg_no_image)
   <-> last_annotated w = None) /\
  (forall data,
     last_annotated w = Some data ->
     fst (get_image w) = MkResponse 200 (JpegFile data)) /\
  (any_detect_succeeded rs w0 = true ->
   exists data,
     latest_stored rs w0 None = Some data /\
     fst (get_image w) = MkResponse 200 (JpegFile data)) /\
  (fst (get_image w) = MkResponse 404 (JsonError msg_no_image) ->
   any_detect_succeeded rs w0 = false) /\
  (any_detect_succeeded rs w0 = false ->
   fst (get_image w) = fst (get_image w0)) /\
  (last_annotated w0 = None ->
   (fst (get_image w) = MkResponse 404 (JsonError msg_no_image)
    <-> any_detect_succeeded rs w0 = false)).
Proof.
  cbv zeta. unfold get_image. rewrite serve_file.
  destruct (any_detect_succeeded rs w0) eqn:Hany.
  - rewrite (latest_stored_overwrites rs w0 (last_annotated w0) None Hany).
    destruct (latest_stored_success rs w0 None Hany) as [data Hd]. rewrite Hd.
    repeat split; try discriminate.
    + now intros data' [= <-].
    + eauto.
  - rewrite latest_stored_quiet by exact Hany.
    destruct (last_annotated w0) as [data0|]; repeat split;
      try discriminate; try reflexivity.
    now intros data' [= <-].
Qed.

(** [GET /get_image] looks at the file only. *)
Lemma get_image_file w :
  fst (get_image w) =
    match last_annotated w with
    | None => MkResponse 404 (JsonError msg_no_image)
    | Some data => MkResponse 200 (JpegFile data)
    end
  /\ snd (get_image w) = w.
Proof. unfold get_image. now destruct (last_annotated w). Qed.

Lemma draw_loop_reach names img row post :
  forall pre h0 h,
    draw_loop names img pre h0 = (Ret tt, h) ->
    draw_loop names img (pre ++ row :: post) h0 =
      match draw_body names img row h with
      | (Ret _, h') => draw_loop names img post h'
      | (Raise e, h') => (Raise e, h')
      end.
Proof.
  induction pre as [|r pre IH]; intros h0 h; simpl.
  - unfold st_ret. now intros [= <-].
  - destruct (draw_body names img r h0) as [[[]|e] h1]; [apply IH|discriminate].
Qed.

Lemma draw_detections_loop img nm bx h :
  draw_detections img (MkResults nm bx) h =
    match draw_loop nm img (zip3 (xyxy bx) (cls bx) (conf bx)) h with
    | (Ret _, h') => (Ret img, h')
    | (Raise e, h') => (Raise e, h')
    end.
Proof.
  unfold draw_detections, st_bind, st_ret. simpl.
  now destruct (draw_loop nm img _ h) as [[[]|e] h'].
Qed.

(** C6. For a detection classified Free with box [(x1, y1, x2, y2)] and
    confidence [cf], the renderer fills, on a scratch copy, the rectangle
    from [(x1, max 0 (y1 - th - 6))] to [(x1 + tw + 8, y1)] in (0, 200, 0),
    blends the copy at 0.35 over the working picture at 0.65, writes
    "Free " and [cf] with two decimals in white at [(x1 + 4, y1 - 4)], and
    draws the box in (0, 200, 0) with thickness 3.  This is what the body of
    the loop does, what the loop of [draw_detections] does when it reaches
    the detection in detector order, before going on with the detections
    after it, and what [draw_detections] returns for that detection alone. *)
Theorem draw_free_detection names img h a fx1 fy1 fx2 fy2 c cf name :
  h !! img = Some a ->
  names !! Py.int c = Some name ->
  classify name = Free ->
  let x1 := Py.int fx1 in
  let y1 := Py.int fy1 in
  let x2 := Py.int fx2 in
  let y2 := Py.int fy2 in
  let txt := "Free " ++ format_2f cf in
  let tw := fst (fst (cv_getTextSize txt FONT_HERSHEY_SIMPLEX (6 # 10) 2)) in
  let th := snd (fst (cv_getTextSize txt FONT_HERSHEY_SIMPLEX (6 # 10) 2)) in
  let y0 := Z.max 0 (y1 - th - 6) in
  let overlay := cv_rectangle a (x1, y0) (x1 + tw + 8, y1) (0, 200, 0) (-1) in
  let blended := cv_addWeighted overlay (35 # 100) a (65 # 100) 0 in
  let labelled :=
    cv_putText blended txt (x1 + 4, y1 - 4) FONT_HERSHEY_SIMPLEX (6 # 10)
      (255, 255, 255) 2 in
  let boxed := cv_rectangle labelled (x1, y1) (x2, y2) (0, 200, 0) 3 in
  let row := ((fx1, fy1, fx2, fy2), c, cf) in
  let after := <[img := boxed]> (<[fresh (dom h) := overlay]> h) in
  draw_body names img row h = (Ret tt, after) /\
  (fresh (dom h) ∉ dom h) /\
  (exists n : Z,
    0 <= n /\
    (Qabs (Qabs cf * 100 - inject_Z n) <= 1 # 2)%Q /\
    format_2f cf =
      (if Qlt_le_dec cf 0 then "-" else "")
        ++ digits (Z.to_N (n / 100)) ++ "."
        ++ (if (Z.to_N (n mod 100) <? 10)%N then "0" else "")
        ++ digits (Z.to_N (n mod 100))) /\
  (forall pre post h0,
     draw_loop names img pre h0 = (Ret tt, h) ->
     draw_loop names img (pre ++ row :: post) h0 =
       draw_loop names img post after) /\
  (forall bx pre post h0,
     zip3 (xyxy bx) (cls bx) (conf bx) = (pre ++ row :: post)%list ->
     draw_loop names img pre h0 = (Ret tt, h) ->
     draw_detections img (MkResults names bx) h0 =
       match draw_loop names img post after with
       | (Ret _, h') => (Ret img, h')
       | (Raise e, h') => (Raise e, h')
       end) /\
  draw_detections img
    (MkResults names (MkBoxes [(fx1, fy1, fx2, fy2)] [c] [cf])) h
  = (Ret img, after).
Proof.
  intros Ha Hk Hfree. cbv zeta.
  apply classify_Free in Hfree.
  pose proof (draw_body_free _ _ _ _ fx1 fy1 fx2 fy2 c cf _ Ha Hk Hfree)
    as Hbody. cbv zeta in Hbody.
  match type of Hbody with _ = (_, ?x) => set (after := x) in * end.
  assert (Hreach : forall pre post h0,
            draw_loop names img pre h0 = (Ret tt, h) ->
            draw_loop names img (pre ++ (fx1, fy1, fx2, fy2, c, cf) :: post) h0 =
              draw_loop names img post after).
  { intros pre post h0 Hpre.
    rewrite (draw_loop_reach _ _ _ _ _ _ _ Hpre), Hbody. reflexivity. }
  split; [exact Hbody|].
  split; [apply is_fresh|].
  split.
  { exists (round_half_even (Qabs cf * 100)).
    split; [|split; [apply round_half_even_near|reflexivity]].
    apply round_half_even_nonneg.
    pose proof (Qabs_nonneg cf). nra. }
  split; [exact Hreach|].
  split.
  - intros bx pre post h0 Hrows Hpre.
    now rewrite draw_detections_loop, Hrows, (Hreach pre post h0 Hpre).
  - rewrite draw_detections_loop. cbn [xyxy cls conf zip3].
    pose proof (Hreach [] [] h eq_refl) as Hone. cbn [app] in Hone.
    now rewrite Hone.
Qed.

(** C7. For a detection classified Occupied or Unknown the renderer draws
    the box in (50, 50, 200) with thickness 1 and nothing else: no text,
    and no scratch array for an overlay.  This is what the body of the loop
    does, what the loop of [draw_detections] does when it reaches the
    detection in detector order, before going on with the detections after
    it, and what [draw_detections] returns for that detection alone. *)
Theorem draw_other_detection names img h a fx1 fy1 fx2 fy2 c cf name :
  h !! img = Some a ->
  names !! Py.int c = Some name ->
  classify name = Occupied \/ classify name = Unknown ->
  let boxed :=
    cv_rectangle a (Py.int fx1, Py.int fy1) (Py.int fx2, Py.int fy2)
      (50, 50, 200) 1 in
  let row := ((fx1, fy1, fx2, fy2), c, cf) in
  draw_body names img row h = (Ret tt, <[img := boxed]> h) /\
  dom (<[img := boxed]> h) = dom h /\
  (forall pre post h0,
     draw_loop names img pre h0 = (Ret tt, h) ->
     draw_loop names img (pre ++ row :: post) h0 =
       draw_loop names img post (<[img := boxed]> h)) /\
  (forall bx pre post h0,
     zip3 (xyxy bx) (cls bx) (conf bx) = (pre ++ row :: post)%list ->
     draw_loop names img pre h0 = (Ret tt, h) ->
     draw_detections img (MkResults names bx) h0 =
       match draw_loop names img post (<[img := boxed]> h) with
       | (Ret _, h') => (Ret img, h')
       | (Raise e, h') => (Raise e, h')
       end) /\
  draw_detections img
    (MkResults names (MkBoxes [(fx1, fy1, fx2, fy2)] [c] [cf])) h
  = (Ret img, <[img := boxed]> h).
Proof.
  intros Ha Hk Hother. cbv zeta.
  assert (str_lower name ∉ FREE_LABELS) as Hnf.
  { intros Hf. apply classify_Free in Hf. destruct Hother; congruence. }
  pose proof (draw_body_other _ _ _ _ fx1 fy1 fx2 fy2 c cf _ Ha Hk Hnf)
    as Hbody.
  match type of Hbody with _ = (_, ?x) => set (after := x) in * end.
  assert (Hreach : forall pre post h0,
            draw_loop names img pre h0 = (Ret tt, h) ->
            draw_loop names img (pre ++ (fx1, fy1, fx2, fy2, c, cf) :: post) h0 =
              draw_loop names img post after).
  { intros pre post h0 Hpre.
    rewrite (draw_loop_reach _ _ _ _ _ _ _ Hpre), Hbody. reflexivity. }
  split; [exact Hbody|].
  split; [apply dom_insert_lookup_L; eauto|].
  split; [exact Hreach|].
  split.
  - intros bx pre post h0 Hrows Hpre.
    now rewrite draw_detections_loop, Hrows, (Hreach pre post h0 Hpre).
  - rewrite draw_detections_loop. cbn [xyxy cls conf zip3].
    pose proof (Hreach [] [] h eq_refl) as Hone. cbn [app] in Hone.
    now rewrite Hone.
Qed.

(** C8. Rendering leaves the caller's picture alone: after line 156 the
    array that was passed holds the pixels it held before, as does every
    other array that existed, and the annotated picture is in a new array;
    so after [/detect] the decoded picture is as [cv2.imdecode] returned
    it. *)
Theorem annotate_preserves_original :
  (forall img result h a,
     h !! img = Some a ->
     forall r h',
       annotate img result h = (r, h') ->
       h' !! img = Some a /\
       (forall l, l ∈ dom h -> h' !! l = h !! l) /\
       (forall l, r = Ret l -> (l ∉ dom h) /\ l <> img)) /\
  (forall files w data pixels,
     files !! "image" = Some data -> data <> [] ->
     cv_imdecode data = Some pixels ->
     arrays (snd (detect_route files w)) !! fresh (dom (arrays w)) = Some pixels /\
     (forall l, l ∈ dom (arrays w) ->
        arrays (snd (detect_route files w)) !! l = arrays w !! l)).
Proof.
  split.
  - intros img result h a Ha r h' Hrun.
    destruct (annotate_frame img result h a r h' Ha Hrun) as [Hfr Hl].
    assert (img ∈ dom h) as Himg by (apply elem_of_dom; eauto).
    split; [now rewrite Hfr|]. split; [exact Hfr|].
    intros l Hr. rewrite (Hl l Hr). split; [apply is_fresh|].
    intros Heq. apply (is_fresh (dom h)). now rewrite Heq.
  - intros files w data pixels Hf Hne Hdec.
    set (img := fresh (dom (arrays w))).
    assert (Hold : forall l, l ∈ dom (arrays w) ->
              <[img := pixels]> (arrays w) !! l = arrays w !! l).
    { intros l Hl. apply lookup_insert_ne. intros <-.
      now apply (is_fresh (dom (arrays w))). }
    assert (Hkeep : forall h2 : gmap loc image,
              (forall l, l ∈ dom (<[img := pixels]> (arrays w)) ->
                 h2 !! l = <[img := pixels]> (arrays w) !! l) ->
              h2 !! img = Some pixels /\
              (forall l, l ∈ dom (arrays w) -> h2 !! l = arrays w !! l)).
    { intros h2 Hfr. split.
      - rewrite Hfr; [apply lookup_insert_eq|].
        apply elem_of_dom. rewrite lookup_insert_eq. eauto.
      - intros l Hl. rewrite Hfr; [now apply Hold|].
        apply elem_of_dom. rewrite Hold by exact Hl. now apply elem_of_dom. }
    unfold detect_route. rewrite Hf. destruct data; [contradiction|].
    rewrite Hdec. fold img.
    destruct (api_model pixels _ _) as [|result rest]; [now apply Hkeep|].
    destruct (count_spots result) as [[open_cnt occ_cnt]|e]; [|now apply Hkeep].
    destruct (annotate img result _) as [r h2] eqn:Hrun.
    apply (annotate_frame img result _ pixels r h2 (lookup_insert_eq _ _ _))
      in Hrun as [Hfr _].
    destruct r; now apply Hkeep.
Qed.

(** C9. Rendering is a function of the picture and the detections: from
    any two stores in which the arrays passed hold the same pixels, line
    156 yields the same pixels (or raises the same exception), namely
    those of [render]; in particular when it is run a second time on the
    same array. *)
Theorem annotate_deterministic result a img1 h1 img2 h2 :
  h1 !! img1 = Some a ->
  h2 !! img2 = Some a ->
  returned_pixels (annotate img1 result h1) =
    returned_pixels (annotate img2 result h2) /\
  returned_pixels (annotate img1 result h1) =
    match render a result with
    | Ret a' => Ret (Some a')
    | Raise e => Raise e
    end /\
  returned_pixels (annotate img1 result (snd (annotate img1 result h1))) =
    returned_pixels (annotate img1 result h1).
Proof.
  assert (Hpure : forall img h, h !! img = Some a ->
            returned_pixels (annotate img result h) =
              match render a result with
              | Ret a' => Ret (Some a')
              | Raise e => Raise e
              end).
  { intros img h Ha.
    destruct (annotate_render img result h a Ha) as (h' & _ & Hspec).
    destruct (render a result).
    - destruct Hspec as [-> Hcp]. simpl. now rewrite Hcp.
    - now rewrite Hspec. }
  intros Ha1 Ha2.
  split; [now rewrite !Hpure|]. split; [now apply Hpure|].
  rewrite (Hpure img1 h1 Ha1). apply Hpure.
  destruct (annotate img1 result h1) as [r h1'] eqn:Hrun.
  simpl. destruct (annotate_frame img1 result h1 a r h1' Ha1 Hrun) as [Hfr _].
  rewrite Hfr; [exact Ha1|]. apply elem_of_dom. eauto.
Qed.

(** *** Further properties of the counter *)

Lemma count_loop_acc names ks :
  forall open_cnt occ_cnt,
    count_loop names ks open_cnt occ_cnt =
      match count_loop names ks 0 0 with
      | Ret (o, c) => Ret (open_cnt + o, occ_cnt + c)
      | Raise e => Raise e
      end.
Proof.
  induction ks as [|k ks IH]; intros open_cnt occ_cnt; simpl.
  - f_equal. f_equal; lia.
  - destruct (getitem names k) as [name|e]; [|reflexivity].
    repeat case_decide.
    + rewrite (IH (open_cnt + 1) occ_cnt), (IH (0 + 1) 0).
      destruct (count_loop names ks 0 0) as [[o c]|e]; [|reflexivity].
      f_equal. f_equal; lia.
    + rewrite (IH open_cnt (occ_cnt + 1)), (IH 0 (0 + 1)).
      destruct (count_loop names ks 0 0) as [[o c]|e]; [|reflexivity].
      f_equal. f_equal; lia.
    + apply IH.
Qed.

Lemma count_loop_app names ks1 ks2 :
  forall open_cnt occ_cnt,
    count_loop names (ks1 ++ ks2) open_cnt occ_cnt =
      match count_loop names ks1 open_cnt occ_cnt with
      | Ret (o, c) => count_loop names ks2 o c
      | Raise e => Raise e
      end.
Proof.
  induction ks1 as [|k ks1 IH]; intros open_cnt occ_cnt; simpl; [reflexivity|].
  destruct (getitem names k) as [name|e]; [|reflexivity].
  repeat case_decide; apply IH.
Qed.

Lemma count_loop_named names ks :
  forall open_cnt occ_cnt counts,
    count_loop names ks open_cnt occ_cnt = Ret counts ->
    Forall (fun k => is_Some (names !! k)) ks.
Proof.
  induction ks as [|k ks IH]; intros open_cnt occ_cnt counts; simpl.
  - constructor.
  - unfold getitem. destruct (names !! k) as [name|] eqn:Hk; [|discriminate].
    intros Hrun. constructor; [eauto|].
    revert Hrun. repeat case_decide; apply IH.
Qed.

Lemma count_loop_unnamed names pre k post :
  Forall (fun j => is_Some (names !! j)) pre ->
  names !! k = None ->
  forall open_cnt occ_cnt,
    count_loop names (pre ++ k :: post) open_cnt occ_cnt = Raise (KeyError k).
Proof.
  intros Hpre Hk. induction Hpre as [|j pre [name Hj] _ IH];
    intros open_cnt occ_cnt; simpl; unfold getitem.
  - now rewrite Hk.
  - rewrite Hj. repeat case_decide; apply IH.
Qed.

Lemma count_loop_perm names ks1 ks2 :
  ks1 ≡ₚ ks2 ->
  forall open_cnt occ_cnt counts,
    count_loop names ks1 open_cnt occ_cnt = Ret counts ->
    count_loop names ks2 open_cnt occ_cnt = Ret counts.
Proof.
  induction 1 as [|k ks1 ks2 _ IH|j k ks|ks1 ks2 ks3 _ IH1 _ IH2];
    intros open_cnt occ_cnt counts.
  - auto.
  - simpl. destruct (getitem names k); [|discriminate].
    repeat case_decide; apply IH.
  - simpl. destruct (getitem names j), (getitem names k); try discriminate;
      repeat case_decide; auto.
  - intros Hrun. apply IH2, IH1, Hrun.
Qed.

(** *** Further properties of the renderer and of [/detect] *)

Lemma paint_row_named names a box c cf name :
  names !! Py.int c = Some name ->
  exists a', paint_row names a (box, c, cf) = Ret a'.
Proof.
  intros Hk. destruct box as [[[fx1 fy1] fx2] fy2].
  unfold paint_row, getitem. rewrite Hk.
  destruct (classify name); [|eauto|eauto].
  destruct (cv_getTextSize _ _ _ _) as [[tw th] bl]. cbn [fst]. eauto.
Qed.

Lemma paint_rows_named names cs :
  Forall (fun k => is_Some (names !! k)) (Py.int <$> cs) ->
  forall xs fs a, exists a', paint_rows names a (zip3 xs cs fs) = Ret a'.
Proof.
  induction cs as [|c cs IH]; intros Hnamed xs fs a.
  - destruct xs; simpl; eauto.
  - rewrite fmap_cons in Hnamed. apply Forall_cons in Hnamed as [[name Hk] Hrest].
    destruct xs as [|box xs]; [simpl; eauto|].
    destruct fs as [|cf fs]; [simpl; eauto|].
    simpl zip3. cbn [paint_rows].
    destruct (paint_row_named names a box c cf name Hk) as [a1 ->].
    now apply IH.
Qed.

Lemma count_spots_render result counts a :
  count_spots result = Ret counts ->
  exists a', render a result = Ret a'.
Proof.
  intros Hc. apply count_loop_named in Hc. now apply paint_rows_named.
Qed.

Lemma draw_loop_app names img rows1 rows2 :
  forall h,
    draw_loop names img (rows1 ++ rows2) h =
      match draw_loop names img rows1 h with
      | (Ret _, h1) => draw_loop names img rows2 h1
      | (Raise e, h1) => (Raise e, h1)
      end.
Proof.
  induction rows1 as [|row rows1 IH]; intros h; simpl; [reflexivity|].
  destruct (draw_body names img row h) as [[[]|e] h1]; [apply IH|reflexivity].
Qed.

Lemma zip3_app {A B C} (a1 a2 : list A) (b1 b2 : list B) (c1 c2 : list C) :
  length a1 = length b1 -> length b1 = length c1 ->
  zip3 (a1 ++ a2) (b1 ++ b2) (c1 ++ c2) =
    (zip3 a1 b1 c1 ++ zip3 a2 b2 c2)%list.
Proof.
  revert b1 c1. induction a1 as [|x a1 IH]; intros [|y b1] [|z c1];
    simpl; try discriminate; [reflexivity|].
  intros [= Hab] [= Hbc]. f_equal. now apply IH.
Qed.

(** A request that passed the three checks, with the OpenCV calls
    succeeding: the answer comes from the detector and [count_spots], the
    file from [render]. *)
Lemma detect_route_decoded files w data pixels :
  files !! "image" = Some data -> data <> [] ->
  cv_imdecode data = Some pixels ->
  exists h2,
    detect_route files w =
      (match api_model pixels (35 # 100) (50 # 100) with
       | [] => internal_error IndexError
       | result :: _ =>
           match count_spots result with
           | Ret (free, occupied) =>
               MkResponse 200
                 (JsonCounts true free occupied (free + occupied) free occupied)
           | Raise e => internal_error e
           end
       end,
       MkWorld h2
         (match api_model pixels (35 # 100) (50 # 100) with
          | [] => last_annotated w
          | result :: _ =>
              match count_spots result, render pixels result with
              | Ret _, Ret a' => Some (cv_imencode_jpg a')
              | _, _ => last_annotated w
              end
          end)
         (pixels :: inferences w)).
Proof.
  intros Hf Hne Hdec. unfold detect_route. rewrite Hf.
  destruct data as [|b data]; [contradiction|]. rewrite Hdec.
  destruct (api_model pixels _ _) as [|result rest]; [eauto|].
  destruct (count_spots result) as [[open_cnt occ_cnt]|e] eqn:Hc; [|eauto].
  destruct (count_spots_render result _ pixels Hc) as [a' Hr].
  destruct (annotate_render (fresh (dom (arrays w))) result
              (<[fresh (dom (arrays w)) := pixels]> (arrays w)) pixels
              (lookup_insert_eq _ _ _)) as (h' & _ & Hrun).
  rewrite Hr in Hrun |- *. destruct Hrun as [-> Hcp].
  unfold imwrite. rewrite Hcp. eauto.
Qed.

Lemma zip3_nil_mid {A B C} (a : list A) (c : list C) :
  zip3 a (@nil B) c = [].
Proof. now destruct a. Qed.

(** *** What else the code guarantees *)

(** X1. [count_spots] raises [KeyError] for the first class index that has
    no name, whatever follows it. *)
Theorem count_spots_first_unnamed result pre k post :
  Py.int <$> cls (boxes result) = (pre ++ k :: post)%list ->
  Forall (fun j => is_Some (names result !! j)) pre ->
  names result !! k = None ->
  count_spots result = Raise (KeyError k).
Proof.
  intros Hcls Hpre Hk. unfold count_spots. rewrite Hcls.
  now apply count_loop_unnamed.
Qed.

(** X2. Counts add up over batches: counting the concatenation of two
    lists of class indices gives the sums of their counts. *)
Theorem count_spots_additive names xyxy1 cls1 conf1 xyxy2 cls2 conf2 o1 c1 o2 c2 :
  count_spots (MkResults names (MkBoxes xyxy1 cls1 conf1)) = Ret (o1, c1) ->
  count_spots (MkResults names (MkBoxes xyxy2 cls2 conf2)) = Ret (o2, c2) ->
  count_spots
    (MkResults names (MkBoxes (xyxy1 ++ xyxy2) (cls1 ++ cls2) (conf1 ++ conf2)))
  = Ret (o1 + o2, c1 + c2).
Proof.
  unfold count_spots. simpl. intros H1 H2.
  rewrite fmap_app, count_loop_app, H1, count_loop_acc, H2. reflexivity.
Qed.

(** X3. The counts do not depend on the order of the detections. *)
Theorem count_spots_order_independent names xyxy1 cls1 conf1 xyxy2 cls2 conf2 counts :
  cls1 ≡ₚ cls2 ->
  count_spots (MkResults names (MkBoxes xyxy1 cls1 conf1)) = Ret counts ->
  count_spots (MkResults names (MkBoxes xyxy2 cls2 conf2)) = Ret counts.
Proof.
  unfold count_spots. simpl. intros Hp.
  apply count_loop_perm. now apply fmap_Permutation.
Qed.

(** X4. [FREE_LABELS] and [OCC_LABELS] share no label, so a name whose
    lowered form is in [OCC_LABELS] always moves the occupied counter, and
    only that one. *)
Theorem occupied_labels_always_counted :
  (forall x, x ∈ FREE_LABELS -> x ∈ OCC_LABELS -> False) /\
  (forall names k label rest open_cnt occ_cnt,
     names !! k = Some label ->
     str_lower label ∈ OCC_LABELS ->
     count_loop names (k :: rest) open_cnt occ_cnt =
       count_loop names rest open_cnt (occ_cnt + 1)).
Proof.
  split; [apply labels_disjoint|].
  intros names k label rest open_cnt occ_cnt Hk Hocc.
  rewrite (count_loop_step _ _ label) by exact Hk.
  now rewrite (proj2 (classify_Occupied label) Hocc).
Qed.

(** X5. [draw_detections] draws in place: it returns the array it was
    given, which then holds the rendered picture, and no other array that
    existed is changed. *)
Theorem draw_detections_draws_in_place img result h a :
  h !! img = Some a ->
  exists h',
    (forall l, l ∈ dom h -> l <> img -> h' !! l = h !! l) /\
    match render a result with
    | Ret a' => draw_detections img result h = (Ret img, h') /\ h' !! img = Some a'
    | Raise e => draw_detections img result h = (Raise e, h')
    end.
Proof.
  intros Ha. unfold draw_detections, st_bind, st_ret, render.
  destruct (draw_loop_paint (names result) img
              (zip3 (xyxy (boxes result)) (cls (boxes result))
                 (conf (boxes result))) h a Ha) as (h' & Hfr & _ & Hrun).
  exists h'. split; [exact Hfr|].
  destruct (paint_rows _ a _) as [a'|e].
  - destruct Hrun as [-> Ha']. now split.
  - now rewrite Hrun.
Qed.

(** X6. Drawing two batches of detections one after the other on the same
    array is drawing their concatenation; an exception in the first batch
    stops before the second. *)
Theorem draw_detections_batches img names xyxy1 cls1 conf1 xyxy2 cls2 conf2 h :
  length xyxy1 = length cls1 -> length cls1 = length conf1 ->
  draw_detections img
    (MkResults names (MkBoxes (xyxy1 ++ xyxy2) (cls1 ++ cls2) (conf1 ++ conf2))) h
  = match draw_detections img (MkResults names (MkBoxes xyxy1 cls1 conf1)) h with
    | (Ret _, h1) =>
        draw_detections img (MkResults names (MkBoxes xyxy2 cls2 conf2)) h1
    | (Raise e, h1) => (Raise e, h1)
    end.
Proof.
  intros H1 H2. unfold draw_detections, st_bind, st_ret.
  simpl.
  rewrite zip3_app by assumption. rewrite draw_loop_app.
  destruct (draw_loop names img (zip3 xyxy1 cls1 conf1) h) as [[[]|e] h1];
    reflexivity.
Qed.

(** X7. The loop of [draw_detections] stops at the first detection whose
    class index has no name: it raises [KeyError] with the detections before
    it drawn on the array and nothing of it or of the later ones. *)
Theorem draw_loop_stops_at_unnamed names img h a pre box c cf post a' :
  h !! img = Some a ->
  paint_rows names a pre = Ret a' ->
  names !! Py.int c = None ->
  exists h',
    draw_loop names img (pre ++ (box, c, cf) :: post) h =
      (Raise (KeyError (Py.int c)), h') /\
    h' !! img = Some a' /\
    (forall l, l ∈ dom h -> l <> img -> h' !! l = h !! l).
Proof.
  intros Ha Hpre Hk.
  destruct (draw_loop_paint names img pre h a Ha) as (h1 & Hfr & _ & Hrun).
  rewrite Hpre in Hrun. destruct Hrun as [Hrun Ha'].
  exists h1. rewrite draw_loop_app, Hrun. cbn [draw_loop].
  destruct box as [[[fx1 fy1] fx2] fy2].
  rewrite (draw_body_keyerror _ _ _ _ _ _ _ _ _ Hk). auto.
Qed.


(** X9. The two unhandled exceptions of [/detect] that come before any
    drawing.  For an upload that is present, non-empty and decodes: if the
    detector returns no result the request ends in [IndexError], and if its
    first result has a class index without a name the request ends in
    [KeyError] for the first such index.  Either way the answer is 500, the
    detector has been run once, and the file at [LAST_PATH] is as it
    was. *)
Theorem detect_route_unhandled files w data pixels :
  files !! "image" = Some data -> data <> [] ->
  cv_imdecode data = Some pixels ->
  let w' :=
    MkWorld (<[fresh (dom (arrays w)) := pixels]> (arrays w))
      (last_annotated w) (pixels :: inferences w) in
  (api_model pixels (35 # 100) (50 # 100) = [] ->
   detect_route files w = (MkResponse 500 (Unhandled IndexError), w')) /\
  (forall result rest pre k post,
     api_model pixels (35 # 100) (50 # 100) = result :: rest ->
     Py.int <$> cls (boxes result) = (pre ++ k :: post)%list ->
     Forall (fun j => is_Some (names result !! j)) pre ->
     names result !! k = None ->
     detect_route files w = (MkResponse 500 (Unhandled (KeyError k)), w')).
Proof.
  intros Hf Hne Hdec. cbv zeta. unfold detect_route. rewrite Hf.
  destruct data as [|b data]; [contradiction|]. rewrite Hdec. split.
  - now intros ->.
  - intros result rest pre k post -> Hcls Hpre Hk.
    unfold count_spots. rewrite Hcls.
    now rewrite (count_loop_unnamed _ pre k post Hpre Hk).
Qed.

(** X10. The detector is run once, on the decoded picture, for every
    request whose upload decodes, also when the request then ends in 500,
    and is not run for any other request. *)
Theorem detect_route_runs_detector_once files w :
  inferences (snd (detect_route files w)) =
    match files !! "image" with
    | Some (b :: data) =>
        match cv_imdecode (b :: data) with
        | Some pixels => pixels :: inferences w
        | None => inferences w
        end
    | _ => inferences w
    end.
Proof.
  destruct (files !! "image") as [[|b data]|] eqn:Hf;
    [unfold detect_route; now rewrite Hf| |unfold detect_route; now rewrite Hf].
  destruct (cv_imdecode (b :: data)) as [pixels|] eqn:Hdec.
  - destruct (detect_route_decoded files w (b :: data) pixels Hf
                ltac:(discriminate) Hdec) as [h2 ->].
    reflexivity.
  - unfold detect_route. now rewrite Hf, Hdec.
Qed.

(** X11. A [/detect] request that does not succeed, be it with 400 or with
    500, leaves the file at [LAST_PATH] as it was. *)
Theorem failed_detect_keeps_file files w :
  detect_succeeded (POST_detect files) (fst (detect_route files w)) = false ->
  last_annotated (snd (detect_route files w)) = last_annotated w.
Proof. intros Hfail. now rewrite detect_route_file, Hfail. Qed.

(** X12. Store and retrieve: right after a [/detect] that succeeded,
    [GET /get_image] answers 200 with the JPEG of the picture rendered for
    that request, whatever was at [LAST_PATH] before. *)
Theorem detect_then_get_image files w :
  detect_succeeded (POST_detect files) (fst (detect_route files w)) = true ->
  exists data pixels result rest a',
    files !! "image" = Some data /\
    cv_imdecode data = Some pixels /\
    api_model pixels (35 # 100) (50 # 100) = result :: rest /\
    render pixels result = Ret a' /\
    fst (get_image (snd (detect_route files w))) =
      MkResponse 200 (JpegFile (cv_imencode_jpg a')).
Proof.
  destruct (files !! "image") as [[|b data]|] eqn:Hf;
    [unfold detect_route; rewrite Hf; discriminate|
    |unfold detect_route; rewrite Hf; discriminate].
  destruct (cv_imdecode (b :: data)) as [pixels|] eqn:Hdec;
    [|unfold detect_route; rewrite Hf, Hdec; discriminate].
  destruct (detect_route_decoded files w (b :: data) pixels Hf
              ltac:(discriminate) Hdec) as [h2 ->].
  destruct (api_model pixels _ _) as [|result rest] eqn:Hres; [discriminate|].
  destruct (count_spots result) as [[free occupied]|e] eqn:Hc; [|discriminate].
  destruct (count_spots_render result _ pixels Hc) as [a' Hr].
  intros _. exists (b :: data), pixels, result, rest, a'.
  rewrite Hr. repeat split; auto.
Qed.

(** X13. [GET /get_image] and [GET /status] never change the process: a
    run of requests ends in the state that its [/detect] requests alone
    lead to. *)
Theorem get_requests_do_not_change_state rs :
  forall w, snd (serve rs w) = snd (serve (List.filter is_detect rs) w).
Proof.
  induction rs as [|r rs IH]; intros w; [reflexivity|].
  destruct r as [files| |]; simpl.
  - destruct (detect_route files w) as [resp w1]. specialize (IH w1).
    destruct (serve rs w1), (serve (List.filter is_detect rs) w1). exact IH.
  - unfold get_image. specialize (IH w).
    destruct (last_annotated w), (serve rs w); exact IH.
  - specialize (IH w). destruct (serve rs w); exact IH.
Qed.

(** X14. When the detector reports no class index, [/detect] answers 200
    with all counts zero and stores the JPEG of the decoded picture with
    nothing drawn on it. *)
Theorem detect_nothing_found files w data pixels result rest :
  files !! "image" = Some data -> data <> [] ->
  cv_imdecode data = Some pixels ->
  api_model pixels (35 # 100) (50 # 100) = result :: rest ->
  cls (boxes result) = [] ->
  fst (detect_route files w) = MkResponse 200 (JsonCounts true 0 0 0 0 0) /\
  last_annotated (snd (detect_route files w)) = Some (cv_imencode_jpg pixels).
Proof.
  intros Hf Hne Hdec Hres Hcls.
  destruct (detect_route_decoded files w data pixels Hf Hne Hdec) as [h2 ->].
  rewrite Hres. unfold count_spots, render. rewrite Hcls, zip3_nil_mid.
  split; reflexivity.
Qed.

End Properties.

(** ** The service on concrete requests *)

Lemma demo_lower_ascii :
  forall s, is_ascii s = true -> str_lower (Imports := Demo.imports) s = lower_ascii s.
Proof. intros s _. reflexivity. Defined.

Example count_spots_lot : count_spots (I := Demo.imports) Demo.lot = Ret (1, 1).
Proof. vm_compute. reflexivity. Qed.

Example detect_lot :
  fst (detect_route (I := Demo.imports) {[ "image" := Demo.jpeg ]} Demo.boot)
  = MkResponse 200 (JsonCounts true 1 1 2 1 1).
Proof. vm_compute. reflexivity. Qed.

Example detect_cone_only :
  count_spots (I := Demo.imports)
    (MkResults Demo.vocabulary (MkBoxes [] [2%Q; 2%Q] [])) = Ret (0, 0).
Proof. vm_compute. reflexivity. Qed.

Example detect_unnamed_class :
  count_spots (I := Demo.imports)
    (MkResults Demo.vocabulary (MkBoxes [] [0%Q; 7%Q] [])) = Raise (KeyError 7).
Proof. vm_compute. reflexivity. Qed.

Example detect_day :
  fst (serve (I := Demo.imports) Demo.day Demo.boot)
  = [ MkResponse 404 (JsonError msg_no_image);
      MkResponse 400 (JsonError msg_decode);
      MkResponse 200 (JsonCounts true 1 1 2 1 1);
      MkResponse 200 (JsonStatus "running" "best.pt" Demo.vocabulary);
      MkResponse 400 (JsonError msg_missing) ].
Proof. vm_compute. reflexivity. Qed.

Example missing_message_quotes :
  String.length msg_missing = 26%nat /\
  String.get 19 msg_missing = Some (ascii_of_nat 34) /\
  String.get 25 msg_missing = Some (ascii_of_nat 34).
Proof. repeat split. Qed.

Lemma classify_case_insensitive_total_witness :
  classify (I := Demo.imports) "VaCaNt" = Free /\
  classify (I := Demo.imports) "VACANT" = classify (I := Demo.imports) "VaCaNt".
Proof.
  pose proof (classify_case_insensitive_total (I := Demo.imports)
                demo_lower_ascii "VaCaNt") as (Hfree & _ & _ & _ & _ & Hcase & _).
  split.
  - apply Hfree. vm_compute. reflexivity.
  - apply (proj1 (Hcase eq_refl)).
Defined.

Lemma detect_route_error_no_effect_witness :
  snd (detect_route (I := Demo.imports) {[ "image" := Demo.junk ]} Demo.reboot)
    = Demo.reboot.
Proof.
  apply (detect_route_error_no_effect (I := Demo.imports)).
  right. right. vm_compute. reflexivity.
Defined.

Lemma get_image_after_run_witness :
  last_annotated Demo.boot = None /\
  exists data,
    latest_stored (I := Demo.imports) Demo.day Demo.boot None = Some data /\
    fst (get_image (snd (serve Demo.day Demo.boot))) = MkResponse 200 (JpegFile data).
Proof.
  split; [reflexivity|].
  pose proof (get_image_after_run (I := Demo.imports) Demo.day Demo.boot)
    as Hrun.
  cbv zeta in Hrun. destruct Hrun as (_ & _ & Hsucc & _).
  apply Hsucc. vm_compute. reflexivity.
Defined.

(** C5, as stated, fails on a process that starts next to the file an
    earlier run left at [LAST_PATH]: no [/detect] has succeeded, and
    [GET /get_image] does not answer 404. *)
Lemma get_image_stale_file :
  ~ (fst (get_image (snd (serve (I := Demo.imports) [] Demo.reboot)))
       = MkResponse 404 (JsonError msg_no_image)
     <-> any_detect_succeeded (I := Demo.imports) [] Demo.reboot = false).
Proof.
  intros [_ Hback]. specialize (Hback eq_refl). discriminate Hback.
Qed.

Example get_image_stale_answer :
  fst (get_image (I := Demo.imports) Demo.reboot)
  = MkResponse 200 (JpegFile Demo.jpeg).
Proof. reflexivity. Qed.

Lemma draw_free_detection_witness :
  draw_detections (I := Demo.imports) 1 Demo.lot_head Demo.easel
  = (Ret 1%positive,
     <[ 1%positive :=
          Demo.Rect
            (Demo.Text
               (Demo.Blend
                  (Demo.Rect (Demo.Decoded Demo.jpeg) (10, 21) (117, 40)
                     (0, 200, 0) (-1))
                  (35 # 100) (Demo.Decoded Demo.jpeg) (65 # 100) 0)
               "Free 0.87" (14, 36) 0 (6 # 10) (255, 255, 255) 2)
            (10, 40) (60, 90) (0, 200, 0) 3 ]>
       (<[ 2%positive :=
             Demo.Rect (Demo.Decoded Demo.jpeg) (10, 21) (117, 40)
               (0, 200, 0) (-1) ]>
          Demo.easel)).
Proof.
  exact (proj2 (proj2 (proj2 (proj2 (proj2
           (draw_free_detection (I := Demo.imports) Demo.vocabulary 1
              Demo.easel (Demo.Decoded Demo.jpeg) (107 # 10) 40 60 90 0
              (14596178 # 16777216) "Free"
              eq_refl eq_refl ltac:(vm_compute; reflexivity))))))).
Defined.

Lemma draw_other_detection_witness :
  draw_detections (I := Demo.imports) 1
    (MkResults Demo.vocabulary
       (MkBoxes [ (70, 405 # 10, 120, 90)%Q ] [ 1%Q ] [ 3 # 4 ])) Demo.easel
  = (Ret 1%positive,
     <[ 1%positive :=
          Demo.Rect (Demo.Decoded Demo.jpeg) (70, 40) (120, 90) (50, 50, 200) 1 ]>
       Demo.easel).
Proof.
  refine (proj2 (proj2 (proj2 (proj2
            (draw_other_detection (I := Demo.imports) Demo.vocabulary 1
               Demo.easel (Demo.Decoded Demo.jpeg) 70 (405 # 10) 120 90 1
               (3 # 4) "OCCUPIED" eq_refl eq_refl _))))).
  left. vm_compute. reflexivity.
Defined.

(** The free spot of [lot] is drawn first, the two other boxes over it. *)
Example draw_lot_in_order :
  draw_detections (I := Demo.imports) 1 Demo.lot Demo.easel
  = draw_detections (I := Demo.imports) 1 Demo.lot_tail
      (snd (draw_detections (I := Demo.imports) 1 Demo.lot_head Demo.easel)).
Proof. vm_compute. reflexivity. Qed.

Lemma annotate_preserves_original_witness :
  snd (annotate (I := Demo.imports) 1 Demo.lot Demo.easel) !! 1%positive
    = Some (Demo.Decoded Demo.jpeg).
Proof.
  exact (proj1 (proj1 (annotate_preserves_original (I := Demo.imports))
                  1%positive Demo.lot Demo.easel (Demo.Decoded Demo.jpeg) eq_refl _ _
                  (surjective_pairing _))).
Defined.

Lemma annotate_deterministic_witness :
  returned_pixels (annotate (I := Demo.imports) 1 Demo.lot Demo.easel) =
  returned_pixels (annotate (I := Demo.imports) 5 Demo.lot Demo.studio).
Proof.
  apply (annotate_deterministic (I := Demo.imports) Demo.lot
           (Demo.Decoded Demo.jpeg) 1 Demo.easel 5 Demo.studio eq_refl eq_refl).
Defined.

Lemma count_spots_first_unnamed_witness :
  count_spots (I := Demo.imports) Demo.stray = Raise (KeyError 7).
Proof.
  apply (count_spots_first_unnamed (I := Demo.imports) Demo.stray [1] 7 [9]).
  - reflexivity.
  - constructor; [|constructor]. exists "OCCUPIED". vm_compute. reflexivity.
  - vm_compute. reflexivity.
Defined.

Lemma count_spots_additive_witness :
  count_spots (I := Demo.imports) Demo.lot = Ret (1 + 0, 0 + 1).
Proof.
  apply (count_spots_additive (I := Demo.imports) Demo.vocabulary
           (xyxy (boxes Demo.lot_head)) (cls (boxes Demo.lot_head))
           (conf (boxes Demo.lot_head))
           (xyxy (boxes Demo.lot_tail)) (cls (boxes Demo.lot_tail))
           (conf (boxes Demo.lot_tail)));
    vm_compute; reflexivity.
Defined.

Lemma count_spots_order_independent_witness :
  count_spots (I := Demo.imports)
    (MkResults Demo.vocabulary (MkBoxes [] [1%Q; 0%Q; 2%Q] [])) = Ret (1, 1).
Proof.
  apply (count_spots_order_independent (I := Demo.imports) Demo.vocabulary
           [] [0%Q; 1%Q; 2%Q] [] [] [1%Q; 0%Q; 2%Q] [] (1, 1)).
  - apply perm_swap.
  - vm_compute. reflexivity.
Defined.

Lemma draw_detections_draws_in_place_witness :
  exists h',
    draw_detections (I := Demo.imports) 1 Demo.lot Demo.easel = (Ret 1%positive, h')
    /\ h' !! 1%positive <> Demo.easel !! 1%positive.
Proof.
  destruct (draw_detections_draws_in_place (I := Demo.imports) 1 Demo.lot
              Demo.easel (Demo.Decoded Demo.jpeg) eq_refl) as (h' & _ & Hrun).
  destruct (render (I := Demo.imports) (Demo.Decoded Demo.jpeg) Demo.lot)
    as [a'|e] eqn:Hr; vm_compute in Hr; [|discriminate Hr].
  destruct Hrun as [Hrun Ha']. exists h'. split; [exact Hrun|].
  rewrite Ha'. injection Hr as <-. discriminate.
Defined.

Lemma draw_detections_batches_witness :
  draw_detections (I := Demo.imports) 1 Demo.lot Demo.easel =
    match draw_detections (I := Demo.imports) 1 Demo.lot_head Demo.easel with
    | (Ret _, h1) => draw_detections (I := Demo.imports) 1 Demo.lot_tail h1
    | (Raise e, h1) => (Raise e, h1)
    end.
Proof.
  exact (draw_detections_batches (I := Demo.imports) 1 Demo.vocabulary
           (xyxy (boxes Demo.lot_head)) (cls (boxes Demo.lot_head))
           (conf (boxes Demo.lot_head))
           (xyxy (boxes Demo.lot_tail)) (cls (boxes Demo.lot_tail))
           (conf (boxes Demo.lot_tail)) Demo.easel eq_refl eq_refl).
Defined.

Lemma draw_loop_stops_at_unnamed_witness :
  exists h',
    draw_loop (I := Demo.imports) Demo.vocabulary 1
      [ ((5, 5, 9, 9)%Q, 1%Q, 1 # 2); ((1, 2, 3, 4)%Q, 7%Q, 1 # 2);
        ((0, 0, 1, 1)%Q, 9%Q, 1 # 2) ] Demo.easel
    = (Raise (KeyError 7), h') /\
    h' !! 1%positive =
      Some (Demo.Rect (Demo.Decoded Demo.jpeg) (5, 5) (9, 9) (50, 50, 200) 1).
Proof.
  destruct (draw_loop_stops_at_unnamed (I := Demo.imports) Demo.vocabulary 1
              Demo.easel (Demo.Decoded Demo.jpeg)
              [ ((5, 5, 9, 9)%Q, 1%Q, 1 # 2) ] (1, 2, 3, 4)%Q 7 (1 # 2)
              [ ((0, 0, 1, 1)%Q, 9%Q, 1 # 2) ]
              (Demo.Rect (Demo.Decoded Demo.jpeg) (5, 5) (9, 9) (50, 50, 200) 1)
              eq_refl ltac:(vm_compute; reflexivity)
              ltac:(vm_compute; reflexivity)) as (h' & Hrun & Ha' & _).
  exists h'. split; [exact Hrun|exact Ha'].
Defined.


Lemma detect_route_unhandled_witness :
  fst (detect_route (I := Demo.lost) {[ "image" := Demo.jpeg ]}
         (MkWorld (I := Demo.lost) ∅ (Some Demo.junk) []))
    = MkResponse 500 (Unhandled (KeyError 7)) /\
  last_annotated
    (snd (detect_route (I := Demo.lost) {[ "image" := Demo.jpeg ]}
            (MkWorld (I := Demo.lost) ∅ (Some Demo.junk) [])))
    = Some Demo.junk.
Proof.
  assert (Hf : ({[ "image" := Demo.jpeg ]} : gmap string (list Byte.byte))
                 !! "image" = Some Demo.jpeg) by (vm_compute; reflexivity).
  assert (Hne : Demo.jpeg <> []) by discriminate.
  pose proof (proj2 (detect_route_unhandled (I := Demo.lost)
                       {[ "image" := Demo.jpeg ]}
                       (MkWorld (I := Demo.lost) ∅ (Some Demo.junk) [])
                       Demo.jpeg (Demo.Decoded Demo.jpeg) Hf Hne eq_refl)
                Demo.stray [] [1] 7 [9] eq_refl eq_refl) as Hrun.
  rewrite Hrun.
  - split; reflexivity.
  - constructor; [|constructor]. exists "OCCUPIED". vm_compute. reflexivity.
  - vm_compute. reflexivity.
Defined.

Lemma failed_detect_keeps_file_witness :
  last_annotated
    (snd (detect_route (I := Demo.imports) {[ "image" := Demo.junk ]} Demo.reboot))
  = Some Demo.jpeg.
Proof.
  apply (failed_detect_keeps_file (I := Demo.imports) {[ "image" := Demo.junk ]}
           Demo.reboot).
  vm_compute. reflexivity.
Defined.

Lemma detect_then_get_image_witness :
  exists a',
    render (I := Demo.imports) (Demo.Decoded Demo.jpeg) Demo.lot = Ret a' /\
    fst (get_image
           (snd (detect_route (I := Demo.imports) {[ "image" := Demo.jpeg ]}
                   Demo.reboot)))
    = MkResponse 200 (JpegFile (Demo.imencode_jpg a')).
Proof.
  assert (Hok : detect_succeeded (POST_detect {[ "image" := Demo.jpeg ]})
                  (fst (detect_route (I := Demo.imports)
                          {[ "image" := Demo.jpeg ]} Demo.reboot)) = true)
    by (vm_compute; reflexivity).
  destruct (detect_then_get_image (I := Demo.imports) {[ "image" := Demo.jpeg ]}
              Demo.reboot Hok)
    as (data & pixels & result & rest & a' & Hf & Hdec & Hres & Hr & Hget).
  assert (data = Demo.jpeg) as ->
    by (vm_compute in Hf; injection Hf as <-; reflexivity).
  assert (pixels = Demo.Decoded Demo.jpeg) as ->
    by (vm_compute in Hdec; injection Hdec as <-; reflexivity).
  assert (result = Demo.lot) as -> by (injection Hres as <- _; reflexivity).
  exists a'. split; [exact Hr|exact Hget].
Defined.

Lemma detect_nothing_found_witness :
  fst (detect_route (I := Demo.quiet) {[ "image" := Demo.jpeg ]}
         (MkWorld (I := Demo.quiet) ∅ (Some Demo.junk) []))
    = MkResponse 200 (JsonCounts true 0 0 0 0 0) /\
  last_annotated
    (snd (detect_route (I := Demo.quiet) {[ "image" := Demo.jpeg ]}
            (MkWorld (I := Demo.quiet) ∅ (Some Demo.junk) [])))
    = Some (Demo.imencode_jpg (Demo.Decoded Demo.jpeg)).
Proof.
  apply (detect_nothing_found (I := Demo.quiet) {[ "image" := Demo.jpeg ]}
           (MkWorld (I := Demo.quiet) ∅ (Some Demo.junk) [])
           Demo.jpeg (Demo.Decoded Demo.jpeg) Demo.nothing []).
  - vm_compute. reflexivity.
  - discriminate.
  - reflexivity.
  - reflexivity.
  - reflexivity.
Defined.

Example get_requests_do_not_change_state_day :
  snd (serve (I := Demo.imports) Demo.day Demo.boot) =
  snd (serve (I := Demo.imports)
         [ POST_detect {[ "image" := Demo.junk ]};
           POST_detect {[ "image" := Demo.jpeg ]};
           POST_detect ∅ ] Demo.boot).
Proof. apply (get_requests_do_not_change_state (I := Demo.imports)). Qed.
